(** * The notification coordinator of the editor UI ([useShowMessage])

    A shallow embedding of the composable [useShowMessage]: the module-level
    queue of sticky notifications, the functions that show notifications,
    toasts and errors, the two confirmation dialogs, the bulk dismissal and
    the derivation of an execution error message.

    JavaScript strings are modelled by [string]; one character of the model
    stands for one UTF-16 code unit, which is what [length], [slice] and
    [includes] count.  Effects (the queue, the rendering primitive, the
    telemetry sink, the external hooks, the modal dialog) are modelled by a
    state record that every operation threads, together with the three ways
    a piece of JavaScript can end: it returns, it throws, or it stays
    suspended on a promise that has not settled. *)

From Stdlib Require Import String Ascii List Bool Arith ZArith Lia.
Import ListNotations.

Set Warnings "-register-all".

Local Open Scope list_scope.
Local Open Scope string_scope.

(** ** Strings *)

Module JsString.

(** Characters that cannot be written inside a literal of this file. *)
Definition LF : string := String (ascii_of_nat 10) EmptyString.
Definition TAB : string := String (ascii_of_nat 9) EmptyString.
Definition DQ : string := String (ascii_of_nat 34) EmptyString.

Fixpoint tabs (n : nat) : string :=
  match n with
  | O => EmptyString
  | S k => TAB ++ tabs k
  end.

(** [s.includes(t)]: [t] occurs in [s] at some position. *)
Fixpoint includes (s t : string) : bool :=
  prefix t s ||
  match s with
  | EmptyString => false
  | String _ s' => includes s' t
  end.

(** [s.slice(0, n)]. *)
Definition slice0 (n : nat) (s : string) : string := substring 0 n s.

(** Truthiness of a value of type [string | undefined]. *)
Definition truthy (o : option string) : bool :=
  match o with
  | Some (String _ _) => true
  | _ => false
  end.

(** [a || b] on values of type [string | undefined]. *)
Definition or_else (a b : option string) : option string :=
  if truthy a then a else b.

(** Interpolation [${x}] of a value of type [string | undefined]. *)
Definition interp (o : option string) : string :=
  match o with
  | Some s => s
  | None => "undefined"
  end.

(** The specification of [includes]: a decomposition of the haystack. *)
Definition contains (s t : string) : Prop :=
  exists a b, s = a ++ t ++ b.

End JsString.

Import JsString.

(** ** The credential classifier *)

(** [causedByCredential], lines 19-23. *)
Definition causedByCredential (message : option string) : bool :=
  match message with
  | None => false
  | Some EmptyString => false
  | Some m => includes m "Credentials for" && includes m "are not set"
  end.

(** ** Data *)

(** [MessageType] of the component library. *)
Inductive MessageType := success | warning | info | error.

Definition MessageType_eqb (a b : MessageType) : bool :=
  match a, b with
  | success, success | warning, warning | info, info | error, error => true
  | _, _ => false
  end.

Inductive NotificationPosition :=
  top_right | top_left | bottom_right | bottom_left.

(** A reference to a displayed notification component. *)
Definition Handle := nat.

(** A component is an object, so the test [if (notification)] of line 49
    always succeeds. *)
Definition is_component (_ : Handle) : bool := true.

(** Functions stored in [onClick] and [onClose]: a function supplied by the
    caller, or the closure that [showToast] builds at lines 110-115, which
    captures the notification and the caller's handler. *)
Inductive Handler :=
| Callback (id : nat)
| CloseThenCall (notification : Handle) (cb : option Handler).

(** The part of [ElNotificationOptions] that the composable reads or
    writes.  [duration] is a number of milliseconds. *)
Record ElNotificationOptions := {
  title : string;
  message : option string;
  type : option MessageType;
  duration : option Z;
  position : option NotificationPosition;
  onClick : option Handler;
  onClose : option Handler;
  customClass : option string;
  dangerouslyUseHTMLString : option bool
}.

(** The argument of [showToast], lines 88-97. *)
Record ToastConfig := {
  cfg_title : string;
  cfg_message : string;
  cfg_onClick : option Handler;
  cfg_onClose : option Handler;
  cfg_duration : option Z;
  cfg_customClass : option string;
  cfg_closeOnClick : option bool;
  cfg_type : option MessageType
}.

Record ElMessageBoxOptions := {
  confirmButtonText : string;
  cancelButtonText : string;
  box_dangerouslyUseHTMLString : bool;
  showClose : option bool;
  box_type : option MessageType
}.

(** The [type] argument of the two confirmation functions: omitted (the
    default ['warning'] applies), [null], or a message type. *)
Inductive TypeArg := TypeOmitted | TypeNull | TypeGiven (t : MessageType).

(** Values that are thrown, or that reject a promise. *)
Inductive Value :=
| VString (s : string)
| VTypeError (msg : string).

(** A node reference carries a name. *)
Record INode := { name : string }.

(** The [node] property of an error: no such property, a property holding
    [undefined] or [null], a plain name, or a node reference. *)
Inductive NodeField :=
| NodeAbsent
| NodeNullish
| NodeString (s : string)
| NodeObject (n : INode).

(** An error as the composable sees it.  [None] stands for a property that
    is missing, [undefined] or [null]. *)
Record ErrorObject := {
  err_message : option string;
  err_description : option string;
  err_node : NodeField
}.

(** The first argument of [showError], of type [Error | unknown]:
    [undefined] or [null], or a value with properties.  A primitive value
    has none of the three properties and is the object without them. *)
Inductive ErrorArg :=
| ErrNullish
| ErrObject (err : ErrorObject).

Coercion ErrObject : ErrorObject >-> ErrorArg.

Record ResultData := {
  error_of : option ErrorObject;
  lastNodeExecuted : option string
}.

Record IRunExecutionData := { resultData : ResultData }.

(** What the collaborators receive. *)
Record TelemetryEvent := {
  event_name : string;
  error_title : string;
  error_description : option (option string);
  error_message : option string;
  caused_by_credential : bool;
  workflow_id : string
}.

Record HookRun := {
  hook_name : string;
  hook_title : string;
  hook_message : option string;
  hook_errorMessage : option string
}.

Record DialogCall := {
  dialog_message : string;
  dialog_headline : string;
  dialog_options : ElMessageBoxOptions
}.

(** How the promise of a modal dialog settles. *)
Inductive Settlement :=
| Resolves
| Rejects (reason : Value)
| NeverSettles.

(** The promise that an [async] function hands to its caller. *)
Inductive Promise (A : Type) :=
| Fulfilled (a : A)
| Rejected (reason : Value)
| Pending.

Arguments Fulfilled {A} a.
Arguments Rejected {A} reason.
Arguments Pending {A}.

(** The result of an expression without side effects. *)
Inductive Completion (A : Type) :=
| Normal (a : A)
| Abrupt (thrown : Value).

Arguments Normal {A} a.
Arguments Abrupt {A} thrown.

(** ** The state *)

(** The module-level queue (line 12), the identifier of the current
    workflow held by the store, and what the rendering primitive, the
    telemetry sink, the hook runner and the dialog have been asked to do. *)
Record World := {
  stickyNotificationQueue : list Handle;
  nextHandle : Handle;
  displayed : list (Handle * ElNotificationOptions);
  closeCalls : list Handle;
  tracked : list TelemetryEvent;
  hookRuns : list HookRun;
  dialogCalls : list DialogCall;
  callbackRuns : list nat;
  workflowId : string
}.

Definition initialWorld (wid : string) : World :=
  {| stickyNotificationQueue := []; nextHandle := 0; displayed := [];
     closeCalls := []; tracked := []; hookRuns := []; dialogCalls := [];
     callbackRuns := []; workflowId := wid |}.

Definition set_queue (q : list Handle) (w : World) : World :=
  {| stickyNotificationQueue := q; nextHandle := nextHandle w;
     displayed := displayed w; closeCalls := closeCalls w;
     tracked := tracked w; hookRuns := hookRuns w;
     dialogCalls := dialogCalls w; callbackRuns := callbackRuns w;
     workflowId := workflowId w |}.

Definition add_displayed (o : ElNotificationOptions) (w : World) : World :=
  {| stickyNotificationQueue := stickyNotificationQueue w;
     nextHandle := S (nextHandle w);
     displayed := displayed w ++ [(nextHandle w, o)]%list;
     closeCalls := closeCalls w; tracked := tracked w;
     hookRuns := hookRuns w; dialogCalls := dialogCalls w;
     callbackRuns := callbackRuns w; workflowId := workflowId w |}.

Definition add_close (h : Handle) (w : World) : World :=
  {| stickyNotificationQueue := stickyNotificationQueue w;
     nextHandle := nextHandle w; displayed := displayed w;
     closeCalls := closeCalls w ++ [h]%list; tracked := tracked w;
     hookRuns := hookRuns w; dialogCalls := dialogCalls w;
     callbackRuns := callbackRuns w; workflowId := workflowId w |}.

Definition add_tracked (ev : TelemetryEvent) (w : World) : World :=
  {| stickyNotificationQueue := stickyNotificationQueue w;
     nextHandle := nextHandle w; displayed := displayed w;
     closeCalls := closeCalls w; tracked := tracked w ++ [ev]%list;
     hookRuns := hookRuns w; dialogCalls := dialogCalls w;
     callbackRuns := callbackRuns w; workflowId := workflowId w |}.

Definition add_hookRun (r : HookRun) (w : World) : World :=
  {| stickyNotificationQueue := stickyNotificationQueue w;
     nextHandle := nextHandle w; displayed := displayed w;
     closeCalls := closeCalls w; tracked := tracked w;
     hookRuns := hookRuns w ++ [r]%list; dialogCalls := dialogCalls w;
     callbackRuns := callbackRuns w; workflowId := workflowId w |}.

Definition add_dialogCall (c : DialogCall) (w : World) : World :=
  {| stickyNotificationQueue := stickyNotificationQueue w;
     nextHandle := nextHandle w; displayed := displayed w;
     closeCalls := closeCalls w; tracked := tracked w;
     hookRuns := hookRuns w; dialogCalls := dialogCalls w ++ [c]%list;
     callbackRuns := callbackRuns w; workflowId := workflowId w |}.

Definition add_callbackRun (id : nat) (w : World) : World :=
  {| stickyNotificationQueue := stickyNotificationQueue w;
     nextHandle := nextHandle w; displayed := displayed w;
     closeCalls := closeCalls w; tracked := tracked w;
     hookRuns := hookRuns w; dialogCalls := dialogCalls w;
     callbackRuns := callbackRuns w ++ [id]%list; workflowId := workflowId w |}.

(** ** Computations *)

(** A computation returns, throws, or waits on a promise that does not
    settle; in each case the state it leaves behind is kept. *)
Inductive Outcome (A : Type) :=
| Returns (a : A) (w : World)
| Throws (thrown : Value) (w : World)
| Suspends (w : World).

Arguments Returns {A} a w.
Arguments Throws {A} thrown w.
Arguments Suspends {A} w.

Definition M (A : Type) : Type := World -> Outcome A.

Definition ret {A} (a : A) : M A := fun w => Returns a w.

Definition bind {A B} (m : M A) (k : A -> M B) : M B :=
  fun w =>
    match m w with
    | Returns a w' => k a w'
    | Throws e w' => Throws e w'
    | Suspends w' => Suspends w'
    end.

Notation "x <- m ;; k" := (bind m (fun x => k))
  (at level 61, m at next level, right associativity).
Notation "m ;; k" := (bind m (fun _ => k))
  (at level 61, right associativity).

Definition throw {A} (e : Value) : M A := fun w => Throws e w.

(** [try { body } catch (e) { handler }]. *)
Definition try_catch {A} (body : M A) (handler : Value -> M A) : M A :=
  fun w =>
    match body w with
    | Throws e w' => handler e w'
    | o => o
    end.

(** [await p]. *)
Definition await (p : Settlement) : M unit :=
  fun w =>
    match p with
    | Resolves => Returns tt w
    | Rejects e => Throws e w
    | NeverSettles => Suspends w
    end.

(** The promise returned by an [async] function with the given body. *)
Definition async {A} (body : M A) (w : World) : Promise A * World :=
  match body w with
  | Returns a w' => (Fulfilled a, w')
  | Throws e w' => (Rejected e, w')
  | Suspends w' => (Pending, w')
  end.

Definition lift {A} (c : Completion A) : M A :=
  match c with
  | Normal a => ret a
  | Abrupt e => throw e
  end.

Definition state_after {A} (o : Outcome A) : World :=
  match o with
  | Returns _ w | Throws _ w | Suspends w => w
  end.

Definition when (b : bool) (m : M unit) : M unit :=
  if b then m else ret tt.

(** [xs.map(f)] with the results dropped. *)
Fixpoint for_each {A} (xs : list A) (f : A -> M unit) : M unit :=
  match xs with
  | [] => ret tt
  | x :: rest => f x ;; for_each rest f
  end.

(** ** The collaborators *)

(** The rendering primitive: [Notification(options)] displays a notification
    and returns its component; [notification.close()] dismisses it. *)
Definition Notification (options : ElNotificationOptions) : M Handle :=
  fun w => Returns (nextHandle w) (add_displayed options w).

Definition close (notification : Handle) : M unit :=
  fun w => Returns tt (add_close notification w).

Definition telemetry_track (ev : TelemetryEvent) : M unit :=
  fun w => Returns tt (add_tracked ev w).

Definition externalHooks_run (r : HookRun) : M unit :=
  fun w => Returns tt (add_hookRun r w).

Definition get_workflowId : M string :=
  fun w => Returns (workflowId w) w.

Definition get_queue : M (list Handle) :=
  fun w => Returns (stickyNotificationQueue w) w.

Definition put_queue (q : list Handle) : M unit :=
  fun w => Returns tt (set_queue q w).

(** Running a stored function.  A caller's function is opaque: its run is
    recorded.  The closure of [showToast] closes the captured notification
    and then calls the captured handler when there is one. *)
Fixpoint run_handler (h : Handler) : M unit :=
  match h with
  | Callback id => fun w => Returns tt (add_callbackRun id w)
  | CloseThenCall notification cb =>
      close notification ;;
      match cb with
      | Some f => run_handler f
      | None => ret tt
      end
  end.

Fixpoint options_of (h : Handle) (l : list (Handle * ElNotificationOptions))
  : option ElNotificationOptions :=
  match l with
  | [] => None
  | (h', o) :: rest => if Nat.eqb h h' then Some o else options_of h rest
  end.

(** The rendering primitive on a click: it runs the [onClick] function of
    the options the notification was created with. *)
Definition click (notification : Handle) : M unit :=
  fun w =>
    match options_of notification (displayed w) with
    | Some o =>
        match onClick o with
        | Some f => run_handler f w
        | None => Returns tt w
        end
    | None => Returns tt w
    end.

(** The sanitizer, the localization resolver and the dialog layer are
    outside of the composable.  [Dialog_throws] says what [new Dialog()]
    does: it gives an instance ([None]) or it throws.  [dialogAnswer] is
    the promise that [$confirm] returns on an instance. *)
Class Collaborators := {
  sanitizeHtml : string -> string;
  baseText : string -> string;
  Dialog_throws : option Value;
  dialogAnswer : string -> string -> ElMessageBoxOptions -> Settlement
}.

(** How [new Dialog().$confirm(message, headline, options)] ends for the
    [await] of lines 194 and 219: as the promise of [$confirm] does, and,
    when the constructor throws, as a rejection with what it threw; inside
    the [try] the two cannot be told apart. *)
Definition confirmDialog {collaborators : Collaborators}
  (message headline : string) (options : ElMessageBoxOptions) : Settlement :=
  match Dialog_throws with
  | Some thrown => Rejects thrown
  | None => dialogAnswer message headline options
  end.

(** ** The composable *)

Section UseShowMessage.

Context {collaborators : Collaborators}.

(** The markup of lines 33-44, with the node name and the description
    already converted to text. *)
Definition details_markup (nodeName : option string) (errorDescription : string)
  : string :=
  LF ++ tabs 4 ++ "<br>" ++
  LF ++ tabs 4 ++ "<br>" ++
  LF ++ tabs 4 ++ "<details>" ++
  LF ++ tabs 5 ++ "<summary" ++
  LF ++ tabs 6 ++ "style=" ++ DQ ++
    "color: #ff6d5a; font-weight: bold; cursor: pointer;" ++ DQ ++
  LF ++ tabs 5 ++ ">" ++
  LF ++ tabs 6 ++ baseText "showMessage.showDetails" ++
  LF ++ tabs 5 ++ "</summary>" ++
  LF ++ tabs 5 ++ "<p>" ++ interp nodeName ++ ": " ++ errorDescription ++ "</p>" ++
  LF ++ tabs 4 ++ "</details>" ++
  LF ++ tabs 3.

(** [description.length > 500 ? `${description.slice(0, 500)}...` :
    description], lines 30-31. *)
Definition errorDescription_of (description : string) : string :=
  if Nat.ltb 500 (String.length description)
  then slice0 500 description ++ "..."
  else description.

(** [node.name] at line 42: reading a property of [undefined] throws, a
    string has no such property, a node reference has its name. *)
Definition name_of_node (node : NodeField) : Completion (option string) :=
  match node with
  | NodeAbsent | NodeNullish =>
      Abrupt (VTypeError "Cannot read properties of undefined (reading 'name')")
  | NodeString _ => Normal None
  | NodeObject n => Normal (Some (name n))
  end.

(** [collapsableDetails], lines 27-45. *)
Definition collapsableDetails (e : ErrorObject) : Completion string :=
  if negb (truthy (err_description e)) then Normal ""
  else
    let errorDescription := errorDescription_of (interp (err_description e)) in
    match name_of_node (err_node e) with
    | Normal nodeName => Normal (details_markup nodeName errorDescription)
    | Abrupt t => Abrupt t
    end.

(** [clearAllStickyNotifications], lines 47-55. *)
Definition clearAllStickyNotifications : M unit :=
  queue <- get_queue ;;
  for_each queue (fun notification =>
    when (is_component notification) (close notification)) ;;
  put_queue [].

(** [messageData.duration === 0], line 72. *)
Definition is_zero (duration : option Z) : bool :=
  match duration with
  | Some d => Z.eqb d 0
  | None => false
  end.

(** [messageData.type === 'error'], line 76. *)
Definition is_error (type : option MessageType) : bool :=
  match type with
  | Some t => MessageType_eqb t error
  | None => false
  end.

(** The options after the assignments of lines 61-68. *)
Definition prepared (messageData : ElNotificationOptions)
  : ElNotificationOptions :=
  {| title := title messageData;
     message :=
       if truthy (message messageData)
       then option_map sanitizeHtml (message messageData)
       else message messageData;
     type := type messageData;
     duration := duration messageData;
     position :=
       match position messageData with
       | None => Some bottom_right
       | Some p => Some p
       end;
     onClick := onClick messageData;
     onClose := onClose messageData;
     customClass := customClass messageData;
     dangerouslyUseHTMLString := Some true |}.

(** The payload of lines 77-82. *)
Definition error_event (messageData : ElNotificationOptions) (wid : string)
  : TelemetryEvent :=
  {| event_name := "Instance FE emitted error";
     error_title := title messageData;
     error_description := None;
     error_message := message messageData;
     caused_by_credential := causedByCredential (message messageData);
     workflow_id := wid |}.

(** [showMessage], lines 57-86.  The second argument is optional and
    defaults to [true]. *)
Definition showMessage (messageData : ElNotificationOptions)
  (track : option bool) : M Handle :=
  let track := match track with Some b => b | None => true end in
  let messageData := prepared messageData in
  notification <- Notification messageData ;;
  when (is_zero (duration messageData))
       (queue <- get_queue ;; put_queue (queue ++ [notification])%list) ;;
  when (is_error (type messageData) && track)
       (wid <- get_workflowId ;;
        telemetry_track (error_event messageData wid)) ;;
  ret notification.

(** The object literal of lines 98-106. *)
Definition toast_options (config : ToastConfig) : ElNotificationOptions :=
  {| title := cfg_title config;
     message := Some (cfg_message config);
     type := cfg_type config;
     duration := cfg_duration config;
     position := None;
     onClick := cfg_onClick config;
     onClose := cfg_onClose config;
     customClass := cfg_customClass config;
     dangerouslyUseHTMLString := None |}.

(** The assignment [config.onClick = ...] of line 110. *)
Definition set_cfg_onClick (f : Handler) (config : ToastConfig) : ToastConfig :=
  {| cfg_title := cfg_title config;
     cfg_message := cfg_message config;
     cfg_onClick := Some f;
     cfg_onClose := cfg_onClose config;
     cfg_duration := cfg_duration config;
     cfg_customClass := cfg_customClass config;
     cfg_closeOnClick := cfg_closeOnClick config;
     cfg_type := cfg_type config |}.

(** [showToast], lines 88-119.  The options handed to [showMessage] are a
    new object; the assignment of line 110 writes to the caller's [config],
    which is returned here next to the notification. *)
Definition showToast (config : ToastConfig) : M (Handle * ToastConfig) :=
  notification <- showMessage (toast_options config) None ;;
  let config :=
    match cfg_closeOnClick config with
    | Some true =>
        let cb := cfg_onClick config in
        set_cfg_onClick (CloseThenCall notification cb) config
    | _ => config
    end in
  ret (notification, config).

Definition genericExecutionError : string :=
  "There was a problem executing the workflow!".

Definition templatedExecutionError (receivedError : string) : string :=
  "There was a problem executing the workflow:<br /><strong>" ++ DQ ++
  receivedError ++ DQ ++ "</strong>".

(** Lines 134-137: the name of the node of an error. *)
Definition nodeName_of (node : NodeField) : Completion (option string) :=
  match node with
  | NodeAbsent => Normal None
  | NodeString s => Normal (Some s)
  | NodeObject n => Normal (Some (name n))
  | NodeNullish =>
      Abrupt (VTypeError "Cannot read properties of undefined (reading 'name')")
  end.

(** [getExecutionError], lines 123-145.  It reads no state and writes none;
    its result has type [string | undefined]. *)
Definition getExecutionError (data : IRunExecutionData)
  : Completion (option string) :=
  let error := error_of (resultData data) in
  match truthy (lastNodeExecuted (resultData data)), error with
  | true, Some e => Normal (or_else (err_message e) (err_description e))
  | _, _ =>
      match error with
      | Some e =>
          if truthy (err_message e) then
            match nodeName_of (err_node e) with
            | Normal nodeName =>
                let receivedError :=
                  if truthy nodeName
                  then interp nodeName ++ ": " ++ interp (err_message e)
                  else interp (err_message e) in
                Normal (Some (templatedExecutionError receivedError))
            | Abrupt t => Abrupt t
            end
          else Normal (Some genericExecutionError)
      | None => Normal (Some genericExecutionError)
      end
  end.

(** The text of the notification of [showError], lines 153-156. *)
Definition error_markup (messageLine : string) (errorMessage : option string)
  (details : string) : string :=
  LF ++ tabs 5 ++ messageLine ++
  LF ++ tabs 5 ++ "<i>" ++ interp errorMessage ++ "</i>" ++
  LF ++ tabs 5 ++ details.

(** [showError], lines 147-176.  On [undefined] or [null] the read of
    [error.message] at line 155 throws. *)
Definition showError (e : ErrorArg) (title : string)
  (message : option string) : M unit :=
  let messageLine :=
    if truthy message then interp message ++ "<br/>" else "" in
  match e with
  | ErrNullish =>
      throw
        (VTypeError "Cannot read properties of undefined (reading 'message')")
  | ErrObject err =>
      details <- lift (collapsableDetails err) ;;
      showMessage
        {| title := title;
           message :=
             Some (error_markup messageLine (err_message err) details);
           type := Some error;
           duration := Some 0%Z;
           position := None;
           onClick := None;
           onClose := None;
           customClass := None;
           dangerouslyUseHTMLString := None |}
        (Some false) ;;
      externalHooks_run
        {| hook_name := "showMessage.showError";
           hook_title := title;
           hook_message := message;
           hook_errorMessage := err_message err |} ;;
      wid <- get_workflowId ;;
      telemetry_track
        {| event_name := "Instance FE emitted error";
           error_title := title;
           error_description := Some message;
           error_message := err_message err;
           caused_by_credential := causedByCredential (err_message err);
           workflow_id := wid |}
  end.

(** The state after [new Dialog().$confirm(...)]: the dialog has been asked
    when the constructor gave an instance, and not otherwise. *)
Definition dialog_asked (call : DialogCall) (w : World) : World :=
  match Dialog_throws with
  | Some _ => w
  | None => add_dialogCall call w
  end.

(** [new Dialog().$confirm(message, headline, options)] followed by
    [await].  The constructor runs first; when it throws, [$confirm] is not
    reached. *)
Definition Dialog_confirm (message headline : string)
  (options : ElMessageBoxOptions) : M unit :=
  fun w =>
    match Dialog_throws with
    | Some thrown => Throws thrown w
    | None =>
        await (dialogAnswer message headline options)
          (add_dialogCall
             {| dialog_message := message;
                dialog_headline := headline;
                dialog_options := options |} w)
    end.

(** [text || locale.baseText(key)]. *)
Definition text_or (text : option string) (key : string) : string :=
  if truthy text then interp text else baseText key.

(** The parameter [type: MessageType | null = 'warning'] and the spread
    [...(type && { type })]. *)
Definition type_entry (type : TypeArg) : option MessageType :=
  match type with
  | TypeOmitted => Some warning
  | TypeNull => None
  | TypeGiven t => Some t
  end.

(** [confirmMessage], lines 178-199. *)
Definition confirmMessage (message headline : string) (type : TypeArg)
  (confirmButtonText cancelButtonText : option string)
  : World -> Promise bool * World :=
  async
    (try_catch
       (let options :=
          {| confirmButtonText := text_or confirmButtonText "showMessage.ok";
             cancelButtonText := text_or cancelButtonText "showMessage.cancel";
             box_dangerouslyUseHTMLString := true;
             showClose := None;
             box_type := type_entry type |} in
        let sanitizedMessage := sanitizeHtml message in
        Dialog_confirm sanitizedMessage headline options ;;
        ret true)
       (fun _ => ret false)).

(** [confirmModal], lines 201-224.  [showClose] is optional and defaults to
    [false]. *)
Definition confirmModal (message headline : string) (type : TypeArg)
  (confirmButtonText cancelButtonText : option string)
  (showClose : option bool) : World -> Promise Value * World :=
  let showClose := match showClose with Some b => b | None => false end in
  async
    (try_catch
       (let options :=
          {| confirmButtonText := text_or confirmButtonText "showMessage.ok";
             cancelButtonText := text_or cancelButtonText "showMessage.cancel";
             box_dangerouslyUseHTMLString := true;
             showClose := Some showClose;
             box_type := type_entry type |} in
        let sanitizedMessage := sanitizeHtml message in
        Dialog_confirm sanitizedMessage headline options ;;
        ret (VString "confirmed"))
       (fun e => ret e)).

End UseShowMessage.

(** ** Sequences of calls and the invariant of the queue *)

(** What the application and the user can do with the composable. *)
Inductive Call :=
| DoShowMessage (messageData : ElNotificationOptions) (track : option bool)
| DoShowToast (config : ToastConfig)
| DoShowError (e : ErrorArg) (title : string) (message : option string)
| DoClearAllStickyNotifications
| DoConfirmMessage (message headline : string) (type : TypeArg)
    (confirmButtonText cancelButtonText : option string)
| DoConfirmModal (message headline : string) (type : TypeArg)
    (confirmButtonText cancelButtonText : option string)
    (showClose : option bool)
| UserClicks (notification : Handle)
| UserCloses (notification : Handle).

Definition perform {collaborators : Collaborators} (c : Call) (w : World)
  : World :=
  match c with
  | DoShowMessage messageData track =>
      state_after (showMessage messageData track w)
  | DoShowToast config => state_after (showToast config w)
  | DoShowError e title message => state_after (showError e title message w)
  | DoClearAllStickyNotifications =>
      state_after (clearAllStickyNotifications w)
  | DoConfirmMessage message headline type confirmButtonText cancelButtonText =>
      snd (confirmMessage message headline type confirmButtonText
             cancelButtonText w)
  | DoConfirmModal message headline type confirmButtonText cancelButtonText
      showClose =>
      snd (confirmModal message headline type confirmButtonText
             cancelButtonText showClose w)
  | UserClicks notification => state_after (click notification w)
  | UserCloses notification => state_after (close notification w)
  end.

Definition perform_all {collaborators : Collaborators} (cs : list Call)
  (w : World) : World :=
  fold_left (fun w c => perform c w) cs w.

(** The states that a session can be in. *)
Definition reachable {collaborators : Collaborators} (w : World) : Prop :=
  exists wid cs, w = perform_all cs (initialWorld wid).

(** The queue holds components that were created, each of them once. *)
Definition queue_ok (w : World) : Prop :=
  NoDup (stickyNotificationQueue w) /\
  forall h, In h (stickyNotificationQueue w) -> h < nextHandle w.

(** The [close] calls made between two states. *)
Definition closes_between (w w' : World) (calls : list Handle) : Prop :=
  closeCalls w' = (closeCalls w ++ calls)%list.

(** Two states with the same queue and the same notifications. *)
Definition same_notifications (w w' : World) : Prop :=
  stickyNotificationQueue w' = stickyNotificationQueue w /\
  nextHandle w' = nextHandle w /\
  displayed w' = displayed w.

(** Two states in which the collaborators have received the same. *)
Definition same_reports (w w' : World) : Prop :=
  tracked w' = tracked w /\
  hookRuns w' = hookRuns w /\
  dialogCalls w' = dialogCalls w /\
  workflowId w' = workflowId w.

(** ** Collaborators for the examples *)

(** A sanitizer that neutralises every tag. *)
Fixpoint escape_markup (s : string) : string :=
  match s with
  | EmptyString => EmptyString
  | String c rest =>
      (if Ascii.eqb c "<" then "&lt;"
       else if Ascii.eqb c ">" then "&gt;"
       else String c EmptyString) ++ escape_markup rest
  end.

Definition english (key : string) : string :=
  if String.eqb key "showMessage.ok" then "OK"
  else if String.eqb key "showMessage.cancel" then "Cancel"
  else if String.eqb key "showMessage.showDetails" then "Show Details"
  else key.

(** A user who accepts a deletion, cancels a save, closes a rename and
    leaves every other dialog open. *)
Definition sample_user (message headline : string)
  (options : ElMessageBoxOptions) : Settlement :=
  if String.eqb headline "Delete?" then Resolves
  else if String.eqb headline "Save?" then Rejects (VString "cancel")
  else if String.eqb headline "Rename?" then Rejects (VString "close")
  else NeverSettles.

Definition sample : Collaborators :=
  {| sanitizeHtml := escape_markup;
     baseText := english;
     Dialog_throws := None;
     dialogAnswer := sample_user |}.

(** A dialog layer whose [Dialog] cannot be constructed. *)
Definition without_dialog : Collaborators :=
  {| sanitizeHtml := escape_markup;
     baseText := english;
     Dialog_throws := Some (VTypeError "Dialog is not a constructor");
     dialogAnswer := sample_user |}.

(** A dialog layer that rejects with the string ["confirmed"]. *)
Definition contrary : Collaborators :=
  {| sanitizeHtml := escape_markup;
     baseText := english;
     Dialog_throws := None;
     dialogAnswer := fun _ _ _ => Rejects (VString "confirmed") |}.

Definition sticky_error : ElNotificationOptions :=
  {| title := "Problem";
     message := Some "Credentials for Slack are not set";
     type := Some error;
     duration := Some 0%Z;
     position := None;
     onClick := None;
     onClose := None;
     customClass := None;
     dangerouslyUseHTMLString := None |}.

Definition transient_info : ElNotificationOptions :=
  {| title := "Saved";
     message := Some "Workflow saved";
     type := Some info;
     duration := None;
     position := None;
     onClick := None;
     onClose := None;
     customClass := None;
     dangerouslyUseHTMLString := None |}.

Definition closing_toast : ToastConfig :=
  {| cfg_title := "Execution finished";
     cfg_message := "Click to open";
     cfg_onClick := Some (Callback 7);
     cfg_onClose := None;
     cfg_duration := None;
     cfg_customClass := None;
     cfg_closeOnClick := Some true;
     cfg_type := Some success |}.

(** An error with a description and no node. *)
Definition described_error : ErrorObject :=
  {| err_message := Some "boom";
     err_description := Some "The service refused the request";
     err_node := NodeAbsent |}.

Definition node_error : ErrorObject :=
  {| err_message := Some "boom";
     err_description := Some "The service refused the request";
     err_node := NodeObject {| name := "HTTP Request" |} |}.

(** A state with two sticky notifications in the queue. *)
Definition two_sticky : World :=
  perform_all (collaborators := sample)
    [DoShowMessage sticky_error None;
     DoShowMessage transient_info None;
     DoShowMessage sticky_error (Some false)]
    (initialWorld "workflow-1").


(** ** Further invariants *)

(** The rendering primitive has handed out every handle that is on
    display. *)
Definition displayed_ok (w : World) : Prop :=
  forall h o, In (h, o) (displayed w) -> h < nextHandle w.

(** Every notification in the queue was displayed with the duration 0. *)
Definition sticky_displayed (w : World) : Prop :=
  forall h, In h (stickyNotificationQueue w) ->
    exists o, options_of h (displayed w) = Some o /\ duration o = Some 0%Z.

(** When [showError] cannot build the details: a description is there and
    the [node] property is missing or holds no value. *)
Definition details_unreadable (e : ErrorObject) : Prop :=
  truthy (err_description e) = true /\
  (err_node e = NodeAbsent \/ err_node e = NodeNullish).

(** When [showError] cannot show anything: there is no error value, or
    the details cannot be built. *)
Definition cannot_show (e : ErrorArg) : Prop :=
  match e with
  | ErrNullish => True
  | ErrObject err => details_unreadable err
  end.

(** An error whose [node] property holds no value. *)
Definition nodeless_error : ErrorObject :=
  {| err_message := Some "boom";
     err_description := None;
     err_node := NodeNullish |}.

Fixpoint repeat_string (n : nat) (s : string) : string :=
  match n with
  | O => EmptyString
  | S k => s ++ repeat_string k s
  end.

(** A description of 600 characters. *)
Definition long_description : string := repeat_string 60 "0123456789".

(** ** Facts about strings *)

Lemma prefix_app (t b : string) : prefix t (t ++ b) = true.
Proof.
  induction t as [|c t IH]; simpl.
  - destruct b; reflexivity.
  - destruct (ascii_dec c c) as [_|N]; [exact IH | now elim N].
Qed.

Lemma prefix_split (t s : string) :
  prefix t s = true -> exists b, s = t ++ b.
Proof.
  revert s; induction t as [|c t IH]; intros s H.
  - exists s; reflexivity.
  - destruct s as [|d s]; simpl in H; [discriminate|].
    destruct (ascii_dec c d) as [->|_]; [|discriminate].
    destruct (IH s H) as [b ->]. exists b; reflexivity.
Qed.

Lemma includes_contains (s t : string) :
  includes s t = true <-> contains s t.
Proof.
  split.
  - induction s as [|c s IH]; cbn [includes]; intros H.
    + rewrite orb_false_r in H. apply prefix_split in H as [b ->].
      exists "", b; reflexivity.
    + apply orb_true_iff in H as [H|H].
      * apply prefix_split in H as [b E]. exists "", b; exact E.
      * destruct (IH H) as (a & b & ->). exists (String c a), b; reflexivity.
  - intros (a & b & ->). induction a as [|c a IH].
    + change ("" ++ t ++ b) with (t ++ b).
      destruct (t ++ b) eqn:E; cbn [includes]; rewrite <- E, prefix_app;
        reflexivity.
    + change (String c a ++ t ++ b) with (String c (a ++ t ++ b)).
      cbn [includes]. rewrite IH. apply orb_true_r.
Qed.

Lemma contains_nonempty (s t : string) :
  contains s t -> t <> "" -> s <> "".
Proof.
  intros (a & b & ->) Ht E.
  destruct a; simpl in E; [|discriminate].
  destruct t; [now apply Ht | discriminate].
Qed.

(** C9: [causedByCredential] answers true exactly on a defined message that
    contains both ["Credentials for"] and ["are not set"]; on [undefined]
    and on the empty string it answers false. *)
Theorem causedByCredential_iff :
  (forall m : option string,
      causedByCredential m = true <->
      exists s, m = Some s /\
                contains s "Credentials for" /\ contains s "are not set") /\
  causedByCredential None = false /\
  causedByCredential (Some "") = false.
Proof.
  split; [|split; reflexivity].
  intros [s|]; simpl.
  - split.
    + intros H. exists s. split; [reflexivity|].
      destruct s as [|c s]; [discriminate|].
      apply andb_true_iff in H as [H1 H2].
      split; now apply includes_contains.
    + intros (s' & [= <-] & H1 & H2).
      destruct s as [|c s].
      * exfalso. now apply (contains_nonempty _ _ H1).
      * apply andb_true_iff. split; now apply includes_contains.
  - split; [discriminate|]. intros (s & [=] & _).
Qed.

Example causedByCredential_set :
  causedByCredential (Some "Credentials for X are not set") = true.
Proof. reflexivity. Qed.

Example causedByCredential_other :
  causedByCredential (Some "some other error") = false.
Proof. reflexivity. Qed.

(** ** Facts about the computations *)

Section Facts.

Context {collaborators : Collaborators}.

Lemma is_zero_iff (d : option Z) : is_zero d = true <-> d = Some 0%Z.
Proof.
  destruct d as [d|]; simpl.
  - rewrite Z.eqb_eq. split; [now intros -> | now intros [= ->]].
  - split; discriminate.
Qed.

Lemma is_error_iff (t : option MessageType) :
  is_error t = true <-> t = Some error.
Proof.
  destruct t as [[]|]; simpl; split; intros E; try discriminate; reflexivity.
Qed.

(** [showMessage] always returns, and this is the state it leaves. *)
Lemma showMessage_returns (messageData : ElNotificationOptions)
  (track : option bool) (w : World) :
  exists w',
    showMessage messageData track w = Returns (nextHandle w) w' /\
    nextHandle w' = S (nextHandle w) /\
    stickyNotificationQueue w' =
      (if is_zero (duration messageData)
       then stickyNotificationQueue w ++ [nextHandle w]
       else stickyNotificationQueue w)%list /\
    displayed w' = (displayed w ++ [(nextHandle w, prepared messageData)])%list /\
    tracked w' =
      (if is_error (type messageData) &&
          match track with Some b => b | None => true end
       then tracked w ++ [error_event (prepared messageData) (workflowId w)]
       else tracked w)%list /\
    closeCalls w' = closeCalls w /\
    hookRuns w' = hookRuns w /\
    dialogCalls w' = dialogCalls w /\
    callbackRuns w' = callbackRuns w /\
    workflowId w' = workflowId w.
Proof.
  unfold showMessage, bind, when, Notification, get_queue, put_queue,
    get_workflowId, telemetry_track, ret.
  cbn [duration type prepared].
  destruct (is_zero (duration messageData));
    destruct (is_error (type messageData));
    destruct track as [[]|]; cbn; eexists; repeat split.
Qed.

Lemma queue_ok_push (w : World) (q : list Handle) (n : Handle) :
  queue_ok w ->
  forall w',
    nextHandle w' = S (nextHandle w) ->
    stickyNotificationQueue w' = q ->
    (q = stickyNotificationQueue w \/
     q = (stickyNotificationQueue w ++ [nextHandle w])%list) ->
    queue_ok w'.
Proof.
  intros [ND LT] w' Hn Hq [->| ->]; split; rewrite ?Hq, ?Hn.
  - exact ND.
  - intros h Hh. apply LT in Hh. lia.
  - apply NoDup_app; [exact ND | repeat constructor; intros [] | ].
    intros h Hh [<-|[]]. apply LT in Hh. lia.
  - intros h Hh. apply in_app_or in Hh as [Hh|[<-|[]]].
    + apply LT in Hh. lia.
    + lia.
Qed.

Lemma showMessage_queue_ok (messageData : ElNotificationOptions)
  (track : option bool) (w : World) :
  queue_ok w -> queue_ok (state_after (showMessage messageData track w)).
Proof.
  intros OK.
  destruct (showMessage_returns messageData track w)
    as (w' & -> & Hn & Hq & _).
  apply (queue_ok_push w _ (nextHandle w) OK w' Hn Hq).
  destruct (is_zero _); auto.
Qed.

Lemma showToast_returns (config : ToastConfig) (w : World) :
  exists w',
    showMessage (toast_options config) None w = Returns (nextHandle w) w' /\
    showToast config w =
      Returns
        (nextHandle w,
         match cfg_closeOnClick config with
         | Some true =>
             set_cfg_onClick
               (CloseThenCall (nextHandle w) (cfg_onClick config)) config
         | _ => config
         end) w'.
Proof.
  unfold showToast, bind.
  destruct (showMessage_returns (toast_options config) None w)
    as (w' & E & _).
  rewrite E. exists w'. split; reflexivity.
Qed.

Lemma showToast_queue_ok (config : ToastConfig) (w : World) :
  queue_ok w -> queue_ok (state_after (showToast config w)).
Proof.
  intros OK.
  destruct (showToast_returns config w) as (w' & E & ->).
  apply (showMessage_queue_ok (toast_options config) None) in OK.
  now rewrite E in OK.
Qed.

(** The close calls of [clearAllStickyNotifications], one element of the
    queue after the other. *)
Lemma for_each_close (queue : list Handle) (w : World) :
  exists w',
    for_each queue
      (fun notification => when (is_component notification) (close notification))
      w = Returns tt w' /\
    closes_between w w' queue /\
    same_notifications w w' /\ same_reports w w' /\
    callbackRuns w' = callbackRuns w.
Proof.
  revert w; induction queue as [|n queue IH]; intros w.
  - exists w. unfold closes_between, same_notifications, same_reports.
    rewrite app_nil_r. repeat split.
  - cbn [for_each]. unfold bind at 1. unfold when, is_component, close.
    destruct (IH (add_close n w))
      as (w' & E & Hc & (Hq & Hn & Hd) & (Ht & Hh & Hg & Hw) & Hr).
    fold (@when) in E. unfold when, is_component, close in E. rewrite E.
    exists w'. unfold closes_between, same_notifications, same_reports in *.
    cbn in *. rewrite Hc, <- app_assoc. repeat split; assumption.
Qed.

Lemma clearAllStickyNotifications_returns (w : World) :
  exists w',
    clearAllStickyNotifications w = Returns tt w' /\
    stickyNotificationQueue w' = [] /\
    closes_between w w' (stickyNotificationQueue w) /\
    nextHandle w' = nextHandle w /\
    displayed w' = displayed w /\
    same_reports w w'.
Proof.
  unfold clearAllStickyNotifications, bind, get_queue, put_queue.
  destruct (for_each_close (stickyNotificationQueue w) w)
    as (w' & E & Hc & (Hq & Hn & Hd) & (Ht & Hh & Hg & Hw) & Hr).
  rewrite E. eexists. split; [reflexivity|].
  unfold closes_between, same_reports in *. cbn. repeat split; assumption.
Qed.

Lemma clearAllStickyNotifications_queue_ok (w : World) :
  queue_ok (state_after (clearAllStickyNotifications w)).
Proof.
  destruct (clearAllStickyNotifications_returns w) as (w' & -> & Hq & _).
  split; cbn; rewrite Hq; [constructor | intros h []].
Qed.

Lemma queue_ok_same (w w' : World) :
  stickyNotificationQueue w' = stickyNotificationQueue w ->
  nextHandle w' = nextHandle w ->
  queue_ok w -> queue_ok w'.
Proof.
  intros Hq Hn [ND LT]. split; rewrite Hq, ?Hn; assumption.
Qed.

(** Stored functions only close notifications and run callbacks. *)
Lemma run_handler_frame (f : Handler) :
  forall w,
    exists w',
      run_handler f w = Returns tt w' /\
      same_notifications w w' /\ same_reports w w'.
Proof.
  induction f as [id | n cb] using
    (fix ind (P : Handler -> Prop)
         (Hc : forall id, P (Callback id))
         (Hw : forall n cb,
             match cb with Some g => P g | None => True end ->
             P (CloseThenCall n cb))
         (f : Handler) {struct f} : P f :=
       match f with
       | Callback id => Hc id
       | CloseThenCall n cb =>
           Hw n cb
              match cb with
              | Some g => ind P Hc Hw g
              | None => I
              end
       end).
  - intros w. eexists. split; [reflexivity|].
    unfold same_notifications, same_reports. cbn. repeat split.
  - intros w. cbn [run_handler]. unfold bind, close.
    destruct cb as [g|].
    + destruct (H (add_close n w)) as (w' & -> & S1 & S2).
      exists w'. split; [reflexivity|]. split; assumption.
    + eexists. split; [reflexivity|].
      unfold same_notifications, same_reports. cbn. repeat split.
Qed.

Lemma click_frame (notification : Handle) (w : World) :
  exists w',
    click notification w = Returns tt w' /\
    same_notifications w w' /\ same_reports w w'.
Proof.
  unfold click.
  destruct (options_of notification (displayed w)) as [o|].
  - destruct (onClick o) as [f|]; [apply run_handler_frame|].
    exists w. unfold same_notifications, same_reports. repeat split.
  - exists w. unfold same_notifications, same_reports. repeat split.
Qed.

(** [showError] throws before it does anything when the details cannot be
    built, and otherwise shows, runs the hook and tracks, in this order. *)
Lemma showError_cases (e : ErrorObject) (title : string)
  (message : option string) (w : World) :
  match collapsableDetails e with
  | Abrupt t => showError e title message w = Throws t w
  | Normal details =>
      let messageData :=
        {| title := title;
           message :=
             Some (error_markup
                     (if truthy message then interp message ++ "<br/>" else "")
                     (err_message e) details);
           type := Some error;
           duration := Some 0%Z;
           position := None;
           onClick := None;
           onClose := None;
           customClass := None;
           dangerouslyUseHTMLString := None |} in
      exists w',
        showError e title message w = Returns tt w' /\
        nextHandle w' = S (nextHandle w) /\
        stickyNotificationQueue w' =
          (stickyNotificationQueue w ++ [nextHandle w])%list /\
        displayed w' =
          (displayed w ++ [(nextHandle w, prepared messageData)])%list /\
        tracked w' =
          (tracked w ++
           [{| event_name := "Instance FE emitted error";
               error_title := title;
               error_description := Some message;
               error_message := err_message e;
               caused_by_credential := causedByCredential (err_message e);
               workflow_id := workflowId w |}])%list /\
        hookRuns w' =
          (hookRuns w ++
           [{| hook_name := "showMessage.showError";
               hook_title := title;
               hook_message := message;
               hook_errorMessage := err_message e |}])%list /\
        closeCalls w' = closeCalls w /\
        dialogCalls w' = dialogCalls w /\
        callbackRuns w' = callbackRuns w /\
        workflowId w' = workflowId w
  end.
Proof.
  unfold showError. unfold bind at 1.
  destruct (collapsableDetails e) as [details|t]; cbn [lift];
    [|reflexivity].
  unfold ret at 1. cbv zeta. unfold bind at 1.
  match goal with
  | |- context [showMessage ?md ?t w] =>
      destruct (showMessage_returns md t w)
        as (w1 & E & Hn & Hq & Hd & Ht & Hc & Hh & Hg & Hr & Hw);
      rewrite E
  end.
  cbn in Hq, Ht.
  unfold bind, externalHooks_run, get_workflowId, telemetry_track.
  eexists. split; [reflexivity|]. cbn.
  rewrite Hn, Hq, Hd, Ht, Hh, Hc, Hg, Hr, Hw. repeat split.
Qed.

Lemma showError_queue_ok (e : ErrorObject) (title : string)
  (message : option string) (w : World) :
  queue_ok w -> queue_ok (state_after (showError e title message w)).
Proof.
  intros OK. pose proof (showError_cases e title message w) as H.
  destruct (collapsableDetails e).
  - destruct H as (w' & -> & Hn & Hq & _).
    apply (queue_ok_push w _ (nextHandle w) OK w' Hn Hq). now right.
  - now rewrite H.
Qed.

(** The promise of the caller follows the dialog; the dialog has been
    asked unless its constructor threw. *)
Lemma Dialog_confirm_cases (message headline : string)
  (options : ElMessageBoxOptions) (w : World) :
  let w' :=
    dialog_asked
      {| dialog_message := message;
         dialog_headline := headline;
         dialog_options := options |} w in
  Dialog_confirm message headline options w =
    match confirmDialog message headline options with
    | Resolves => Returns tt w'
    | Rejects reason => Throws reason w'
    | NeverSettles => Suspends w'
    end.
Proof.
  unfold Dialog_confirm, confirmDialog, dialog_asked, await.
  destruct Dialog_throws; [reflexivity|].
  destruct (dialogAnswer message headline options); reflexivity.
Qed.

Lemma confirmMessage_cases (message headline : string) (type : TypeArg)
  (confirmButtonText cancelButtonText : option string) (w : World) :
  let options :=
    {| confirmButtonText := text_or confirmButtonText "showMessage.ok";
       cancelButtonText := text_or cancelButtonText "showMessage.cancel";
       box_dangerouslyUseHTMLString := true;
       showClose := None;
       box_type := type_entry type |} in
  confirmMessage message headline type confirmButtonText cancelButtonText w =
    (match confirmDialog (sanitizeHtml message) headline options with
     | Resolves => Fulfilled true
     | Rejects _ => Fulfilled false
     | NeverSettles => Pending
     end,
     dialog_asked
       {| dialog_message := sanitizeHtml message;
          dialog_headline := headline;
          dialog_options := options |} w).
Proof.
  unfold confirmMessage, async, try_catch, bind.
  rewrite Dialog_confirm_cases.
  destruct (confirmDialog _ _ _); reflexivity.
Qed.

Lemma confirmModal_cases (message headline : string) (type : TypeArg)
  (confirmButtonText cancelButtonText : option string)
  (showClose : option bool) (w : World) :
  let options :=
    {| confirmButtonText := text_or confirmButtonText "showMessage.ok";
       cancelButtonText := text_or cancelButtonText "showMessage.cancel";
       box_dangerouslyUseHTMLString := true;
       showClose := Some (match showClose with Some b => b | None => false end);
       box_type := type_entry type |} in
  confirmModal message headline type confirmButtonText cancelButtonText
    showClose w =
    (match confirmDialog (sanitizeHtml message) headline options with
     | Resolves => Fulfilled (VString "confirmed")
     | Rejects reason => Fulfilled reason
     | NeverSettles => Pending
     end,
     dialog_asked
       {| dialog_message := sanitizeHtml message;
          dialog_headline := headline;
          dialog_options := options |} w).
Proof.
  unfold confirmModal, async, try_catch, bind.
  rewrite Dialog_confirm_cases.
  destruct (confirmDialog _ _ _); reflexivity.
Qed.

(** Asking the dialog touches nothing but the record of the dialog. *)
Lemma dialog_asked_frame (call : DialogCall) (w : World) :
  stickyNotificationQueue (dialog_asked call w) = stickyNotificationQueue w /\
  nextHandle (dialog_asked call w) = nextHandle w /\
  displayed (dialog_asked call w) = displayed w /\
  closeCalls (dialog_asked call w) = closeCalls w /\
  tracked (dialog_asked call w) = tracked w /\
  hookRuns (dialog_asked call w) = hookRuns w /\
  callbackRuns (dialog_asked call w) = callbackRuns w.
Proof.
  unfold dialog_asked. destruct Dialog_throws; repeat split.
Qed.

(** The calls that reach the dialog: one when the constructor gave an
    instance, none when it threw. *)
Lemma dialog_asked_calls (call : DialogCall) (w : World) :
  dialogCalls (dialog_asked call w) =
    (dialogCalls w ++
     match Dialog_throws with
     | Some _ => []
     | None => [call]
     end)%list.
Proof.
  unfold dialog_asked. destruct Dialog_throws; [|reflexivity].
  now rewrite app_nil_r.
Qed.

(** Every call keeps the invariant of the queue. *)
Lemma perform_queue_ok (c : Call) (w : World) :
  queue_ok w -> queue_ok (perform c w).
Proof.
  intros OK.
  destruct c as [messageData track | config | [|e] ttl msg | | ? ? ? ? ? |
                 ? ? ? ? ? ? | notification | notification];
    cbn [perform].
  - now apply showMessage_queue_ok.
  - now apply showToast_queue_ok.
  - exact OK.
  - now apply showError_queue_ok.
  - apply clearAllStickyNotifications_queue_ok.
  - rewrite confirmMessage_cases. cbn [snd].
    match goal with
    | |- queue_ok (dialog_asked ?c w) =>
        destruct (dialog_asked_frame c w) as (Hq & Hn & _)
    end.
    now apply (queue_ok_same w _ Hq Hn).
  - rewrite confirmModal_cases. cbn [snd].
    match goal with
    | |- queue_ok (dialog_asked ?c w) =>
        destruct (dialog_asked_frame c w) as (Hq & Hn & _)
    end.
    now apply (queue_ok_same w _ Hq Hn).
  - destruct (click_frame notification w) as (w' & -> & (Hq & Hn & _) & _).
    now apply (queue_ok_same w w').
  - exact OK.
Qed.

Lemma reachable_queue_ok (w : World) : reachable w -> queue_ok w.
Proof.
  intros (wid & cs & ->).
  assert (G : forall w0, queue_ok w0 -> queue_ok (perform_all cs w0)).
  { induction cs as [|c cs IH]; intros w0 OK; [exact OK|].
    apply IH. now apply perform_queue_ok. }
  apply G. split; [constructor | intros h []].
Qed.

End Facts.

(** ** The sticky queue *)

Section StickyQueue.

Context {collaborators : Collaborators}.

(** C1 (as amended): [showMessage] always returns, and the notification it
    returns is in the queue right after the call exactly when the duration of
    the options is the number 0; with any other duration, and with no
    duration at all, the queue is left as it was. *)
Theorem showMessage_queued_iff_zero_duration
  (messageData : ElNotificationOptions) (track : option bool) (w : World) :
  queue_ok w ->
  exists notification w',
    showMessage messageData track w = Returns notification w' /\
    (In notification (stickyNotificationQueue w') <->
     duration messageData = Some 0%Z) /\
    (duration messageData = Some 0%Z ->
     stickyNotificationQueue w' =
       (stickyNotificationQueue w ++ [notification])%list) /\
    (duration messageData <> Some 0%Z ->
     stickyNotificationQueue w' = stickyNotificationQueue w).
Proof.
  intros [_ LT].
  destruct (showMessage_returns messageData track w)
    as (w' & E & _ & Hq & _).
  exists (nextHandle w), w'. split; [exact E|].
  pose proof (is_zero_iff (duration messageData)) as Z.
  destruct (is_zero (duration messageData)); rewrite Hq.
  - assert (D : duration messageData = Some 0%Z) by now apply Z.
    repeat split; auto.
    + intros _. apply in_or_app. right. now left.
    + intros N. now elim N.
  - assert (D : duration messageData <> Some 0%Z).
    { intros D. apply Z in D. discriminate. }
    repeat split; auto.
    + intros Hin. apply LT in Hin. lia.
    + intros D'. now elim D.
    + intros D'. now elim D.
Qed.

(** C7: [clearAllStickyNotifications] returns with an empty queue, and the
    [close] calls it makes are the former queue: one call for each handle
    that was in the queue, none for any other handle. *)
Theorem clearAllStickyNotifications_closes_each_once (w : World) :
  queue_ok w ->
  exists w' calls,
    clearAllStickyNotifications w = Returns tt w' /\
    stickyNotificationQueue w' = [] /\
    closes_between w w' calls /\
    (forall h, In h (stickyNotificationQueue w) ->
               count_occ Nat.eq_dec calls h = 1) /\
    (forall h, ~ In h (stickyNotificationQueue w) ->
               count_occ Nat.eq_dec calls h = 0).
Proof.
  intros [ND _].
  destruct (clearAllStickyNotifications_returns w)
    as (w' & E & Hq & Hc & _).
  exists w', (stickyNotificationQueue w).
  repeat split; try assumption.
  - intros h Hin. now apply NoDup_count_occ'.
  - intros h Hout. now apply count_occ_not_In.
Qed.


End StickyQueue.

(** ** The confirmation dialogs *)

Section Dialogs.

Context {collaborators : Collaborators}.

(** C3: the promise of [confirmMessage] is fulfilled with [true] exactly
    when the promise of the dialog resolves, fulfilled with [false] exactly
    when it rejects, whatever the reason, and it is never rejected. *)
Theorem confirmMessage_true_iff_resolved (message headline : string)
  (type : TypeArg) (confirmButtonText cancelButtonText : option string)
  (w : World) :
  let options :=
    {| confirmButtonText := text_or confirmButtonText "showMessage.ok";
       cancelButtonText := text_or cancelButtonText "showMessage.cancel";
       box_dangerouslyUseHTMLString := true;
       showClose := None;
       box_type := type_entry type |} in
  let settlement := confirmDialog (sanitizeHtml message) headline options in
  let result :=
    fst (confirmMessage message headline type confirmButtonText
           cancelButtonText w) in
  (result = Fulfilled true <-> settlement = Resolves) /\
  (result = Fulfilled false <-> exists reason, settlement = Rejects reason) /\
  (result = Pending <-> settlement = NeverSettles) /\
  (forall reason, result <> Rejected reason).
Proof.
  cbv zeta. rewrite confirmMessage_cases. cbn [fst].
  destruct (confirmDialog _ _ _) as [|reason|].
  - repeat split; try discriminate; try reflexivity.
    intros (r & [=]).
  - repeat split; try discriminate; try reflexivity.
    intros _. now exists reason.
  - repeat split; try discriminate; try reflexivity.
    intros (r & [=]).
Qed.

(** C4 (as amended): the promise of [confirmModal] is fulfilled with
    ["confirmed"] when the promise of the dialog resolves, fulfilled with
    the reason of the rejection, unchanged, when it rejects, and it is never
    rejected; so the result is ["confirmed"] exactly when the dialog
    resolves or rejects with the string ["confirmed"] itself. *)
Theorem confirmModal_confirmed_or_reason (message headline : string)
  (type : TypeArg) (confirmButtonText cancelButtonText : option string)
  (showClose : option bool) (w : World) :
  let options :=
    {| confirmButtonText := text_or confirmButtonText "showMessage.ok";
       cancelButtonText := text_or cancelButtonText "showMessage.cancel";
       box_dangerouslyUseHTMLString := true;
       showClose := Some (match showClose with Some b => b | None => false end);
       box_type := type_entry type |} in
  let settlement := confirmDialog (sanitizeHtml message) headline options in
  let result :=
    fst (confirmModal message headline type confirmButtonText
           cancelButtonText showClose w) in
  (settlement = Resolves -> result = Fulfilled (VString "confirmed")) /\
  (forall reason, settlement = Rejects reason -> result = Fulfilled reason) /\
  (result = Pending <-> settlement = NeverSettles) /\
  (forall reason, result <> Rejected reason) /\
  (result = Fulfilled (VString "confirmed") <->
   settlement = Resolves \/ settlement = Rejects (VString "confirmed")).
Proof.
  cbv zeta. rewrite confirmModal_cases. cbn [fst].
  destruct (confirmDialog _ _ _) as [|reason|].
  - split; [reflexivity|]. split; [discriminate|].
    split; [split; discriminate|]. split; [discriminate|].
    split; [now left | reflexivity].
  - split; [discriminate|]. split; [now intros r [= ->]|].
    split; [split; discriminate|]. split; [discriminate|].
    split.
    + intros [= ->]. now right.
    + intros [[=]|[= ->]]. reflexivity.
  - split; [discriminate|]. split; [discriminate|].
    split; [split; reflexivity|]. split; [discriminate|].
    split; [discriminate | intros [[=]|[=]]].
Qed.

(** C10: whatever reaches the dialog from the two confirmation functions
    is the sanitized message, with the headline and with the options asking
    for the text to be read as HTML.  The dialog is asked once when its
    constructor gives an instance, and not at all when the constructor
    throws. *)
Theorem confirmations_show_sanitized_html (message headline : string)
  (type : TypeArg) (confirmButtonText cancelButtonText : option string)
  (showClose : option bool) (w : World) :
  let sanitized_html calls :=
    (Dialog_throws = None -> List.length calls = 1) /\
    (Dialog_throws <> None -> calls = []) /\
    forall call : DialogCall, In call calls ->
      dialog_message call = sanitizeHtml message /\
      dialog_headline call = headline /\
      box_dangerouslyUseHTMLString (dialog_options call) = true in
  (exists calls,
      dialogCalls
        (snd (confirmMessage message headline type confirmButtonText
                cancelButtonText w)) = (dialogCalls w ++ calls)%list /\
      sanitized_html calls) /\
  (exists calls,
      dialogCalls
        (snd (confirmModal message headline type confirmButtonText
                cancelButtonText showClose w)) = (dialogCalls w ++ calls)%list /\
      sanitized_html calls).
Proof.
  cbv zeta. rewrite confirmMessage_cases, confirmModal_cases. cbn [snd].
  rewrite !dialog_asked_calls.
  split; eexists; (split; [reflexivity|]);
    destruct Dialog_throws as [thrown|].
  all: split; [try discriminate; reflexivity|].
  all: split; [try reflexivity; intros N; now elim N|].
  all: intros call Hin; try (now destruct Hin).
  all: destruct Hin as [<-|[]]; repeat split.
Qed.

End Dialogs.

(** ** Errors *)

Lemma slice0_prefix (n : nat) (s : string) :
  n <= String.length s ->
  String.length (slice0 n s) = n /\ exists rest, s = slice0 n s ++ rest.
Proof.
  unfold slice0. revert s; induction n as [|n IH]; intros s Hn.
  - destruct s; simpl; split; try reflexivity; eexists; reflexivity.
  - destruct s as [|c s]; simpl in Hn; [lia|].
    destruct (IH s) as (L & rest & E); [lia|].
    cbn [substring]. split.
    + cbn [String.length]. now rewrite L.
    + exists rest. cbn [append]. now rewrite <- E.
Qed.

(** The description shown in the details: as it is up to 500 characters,
    its first 500 characters followed by three dots beyond. *)
Lemma errorDescription_of_truncates (description : string) :
  (String.length description <= 500 ->
   errorDescription_of description = description) /\
  (500 < String.length description ->
   exists first rest,
     description = first ++ rest /\
     String.length first = 500 /\
     errorDescription_of description = first ++ "...").
Proof.
  unfold errorDescription_of. split; intros Hl.
  - destruct (Nat.ltb_spec 500 (String.length description)); [lia|reflexivity].
  - destruct (Nat.ltb_spec 500 (String.length description)); [|lia].
    destruct (slice0_prefix 500 description) as (L & rest & E); [lia|].
    exists (slice0 500 description), rest. repeat split; assumption.
Qed.

Section Errors.

Context {collaborators : Collaborators}.

(** The details are empty without a description, and hold the name of the
    node and the shortened description of an error that has a node. *)
Lemma collapsableDetails_cases (e : ErrorObject) :
  (truthy (err_description e) = false -> collapsableDetails e = Normal "") /\
  (forall description n,
      err_description e = Some description -> description <> "" ->
      err_node e = NodeObject n ->
      collapsableDetails e =
        Normal (details_markup (Some (name n))
                  (errorDescription_of description))) /\
  (forall description,
      err_description e = Some description -> description <> "" ->
      err_node e = NodeAbsent \/ err_node e = NodeNullish ->
      exists t, collapsableDetails e = Abrupt t).
Proof.
  unfold collapsableDetails. repeat split.
  - now intros ->.
  - intros [|c d] n -> Hd ->; [now elim Hd | reflexivity].
  - intros [|c d] -> Hd [-> | ->]; try (now elim Hd); eexists; reflexivity.
Qed.

(** Whenever the details can be built, [showError] shows one sticky
    notification of type ['error'] whose text is the sanitized composition
    of the message line, the message of the error and the details, runs the
    hook once and sends one event. *)
Lemma showError_shows_sticky_error (e : ErrorObject) (title : string)
  (msg : option string) (w : World) (details : string) :
  collapsableDetails e = Normal details ->
  exists w' shown,
    showError e title msg w = Returns tt w' /\
    displayed w' = (displayed w ++ [(nextHandle w, shown)])%list /\
    duration shown = Some 0%Z /\
    type shown = Some error /\
    message shown =
      Some (sanitizeHtml
              (error_markup
                 (if truthy msg then interp msg ++ "<br/>" else "")
                 (err_message e) details)) /\
    In (nextHandle w) (stickyNotificationQueue w') /\
    (exists ev, tracked w' = (tracked w ++ [ev])%list /\
                error_message ev = err_message e) /\
    (exists run, hookRuns w' = (hookRuns w ++ [run])%list /\
                 hook_name run = "showMessage.showError").
Proof.
  intros Hd. pose proof (showError_cases e title msg w) as H.
  rewrite Hd in H. cbv zeta in H.
  destruct H as (w' & E & _ & Hq & Hdis & Ht & Hh & _).
  eexists; eexists. split; [exact E|]. split; [exact Hdis|].
  repeat split.
  - rewrite Hq. apply in_or_app. right. now left.
  - eexists. split; [exact Ht | reflexivity].
  - eexists. split; [exact Hh | reflexivity].
Qed.

End Errors.

(** C8: [getExecutionError] on run data without a last executed node whose
    error has a message and a [node] property holding [undefined].  The
    test ['node' in error] of line 135 succeeds, the read of
    [error.node!.name] at line 136 throws, and no sentence is returned. *)
Theorem getExecutionError_undefined_node_throws :
  getExecutionError
    {| resultData :=
         {| error_of := Some nodeless_error; lastNodeExecuted := None |} |} =
  Abrupt (VTypeError "Cannot read properties of undefined (reading 'name')").
Proof. reflexivity. Qed.

(** X18: the sentences of [getExecutionError] when the [node] property of
    the error is missing, a string or a node reference.  With a last
    executed node and an error the result is the message of the error, or
    its description when the message is missing or empty.  Otherwise it is
    the sentence "There was a problem executing the workflow!", unless the
    error has a message: then it is the message between quotes inside the
    second sentence, behind the name of the node and a colon when the
    [node] property gives a name that is not empty. *)
Theorem getExecutionError_sentences :
  let quote := String (ascii_of_nat 34) EmptyString in
  (forall data e,
      error_of (resultData data) = Some e ->
      truthy (lastNodeExecuted (resultData data)) = true ->
      (forall m, err_message e = Some m -> m <> "" ->
                 getExecutionError data = Normal (Some m)) /\
      (truthy (err_message e) = false ->
       getExecutionError data = Normal (err_description e))) /\
  (forall data,
      error_of (resultData data) = None ->
      getExecutionError data =
        Normal (Some "There was a problem executing the workflow!")) /\
  (forall data e,
      error_of (resultData data) = Some e ->
      truthy (lastNodeExecuted (resultData data)) = false ->
      truthy (err_message e) = false ->
      getExecutionError data =
        Normal (Some "There was a problem executing the workflow!")) /\
  (forall data e m n,
      error_of (resultData data) = Some e ->
      truthy (lastNodeExecuted (resultData data)) = false ->
      err_message e = Some m -> m <> "" ->
      err_node e = NodeString n \/ err_node e = NodeObject {| name := n |} ->
      n <> "" ->
      getExecutionError data =
        Normal
          (Some ("There was a problem executing the workflow:<br /><strong>"
                 ++ quote ++ (n ++ ": " ++ m) ++ quote ++ "</strong>"))) /\
  (forall data e m,
      error_of (resultData data) = Some e ->
      truthy (lastNodeExecuted (resultData data)) = false ->
      err_message e = Some m -> m <> "" ->
      err_node e = NodeAbsent \/ err_node e = NodeString "" \/
      err_node e = NodeObject {| name := "" |} ->
      getExecutionError data =
        Normal
          (Some ("There was a problem executing the workflow:<br /><strong>"
                 ++ quote ++ m ++ quote ++ "</strong>"))).
Proof.
  cbv zeta. unfold getExecutionError. split; [|split; [|split; [|split]]].
  - intros data e -> ->. split.
    + intros [|c m] -> Hm; [now elim Hm | reflexivity].
    + unfold or_else. now intros ->.
  - intros data ->. destruct (truthy _); reflexivity.
  - intros data e -> -> ->. reflexivity.
  - intros data e [|c m] n -> -> -> Hm Hn Hnn; [now elim Hm|].
    destruct Hn as [-> | ->]; destruct n; try (now elim Hnn); reflexivity.
  - intros data e [|c m] -> -> -> Hm Hn; [now elim Hm|].
    destruct Hn as [-> | [-> | ->]]; reflexivity.
Qed.

Example getExecutionError_boom :
  getExecutionError
    {| resultData :=
         {| error_of :=
              Some {| err_message := Some "boom"; err_description := None;
                      err_node := NodeAbsent |};
            lastNodeExecuted := Some "Node1" |} |} =
    Normal (Some "boom").
Proof. reflexivity. Qed.

(** A [node] property that holds [undefined] or [null] makes the read of
    line 136 throw. *)
Lemma getExecutionError_nullish_node (data : IRunExecutionData)
  (e : ErrorObject) :
  error_of (resultData data) = Some e ->
  truthy (lastNodeExecuted (resultData data)) = false ->
  truthy (err_message e) = true ->
  err_node e = NodeNullish ->
  exists t, getExecutionError data = Abrupt t.
Proof.
  unfold getExecutionError. intros -> -> -> ->. eexists; reflexivity.
Qed.

(** C2: [showError] on an error that has a description and no node.  The
    read of [node.name] at line 42 throws before anything is shown: no
    notification, no hook run, no event. *)
Theorem showError_description_without_node_throws :
  showError (collaborators := sample) described_error "Problem" None
    (initialWorld "workflow-1") =
  Throws (VTypeError "Cannot read properties of undefined (reading 'name')")
    (initialWorld "workflow-1").
Proof. reflexivity. Qed.

(** With a node, the same error is shown. *)
Example showError_node_error :
  exists w',
    showError (collaborators := sample) node_error "Problem" None
      (initialWorld "workflow-1") = Returns tt w' /\
    stickyNotificationQueue w' = [0] /\
    List.length (tracked w') = 1 /\ List.length (hookRuns w') = 1.
Proof. eexists. repeat split. Qed.

(** What [showToast] hands to the rendering primitive carries the handler
    of the caller as it came in. *)
Lemma showToast_attaches_callers_handler {collaborators : Collaborators}
  (config : ToastConfig) (w : World) :
  exists notification config' w',
    showToast config w = Returns (notification, config') w' /\
    displayed w' =
      (displayed w ++ [(notification, prepared (toast_options config))])%list /\
    onClick (prepared (toast_options config)) = cfg_onClick config /\
    (cfg_closeOnClick config = Some true ->
     cfg_onClick config' =
       Some (CloseThenCall notification (cfg_onClick config))).
Proof.
  destruct (showToast_returns config w) as (w' & E & ->).
  destruct (showMessage_returns (toast_options config) None w)
    as (w1 & E1 & _ & _ & Hd & _).
  rewrite E in E1. injection E1 as <-.
  eexists; eexists; eexists. split; [reflexivity|].
  split; [exact Hd|]. split; [reflexivity|].
  now intros ->.
Qed.

(** C6: [showToast] with [closeOnClick] and a handler of the caller.  The
    notification is displayed with the handler of the caller; the wrapper
    is written to the configuration afterwards, so a click runs the handler
    and closes nothing. *)
Theorem showToast_closeOnClick_click_does_not_close :
  exists notification config' w' w'',
    showToast (collaborators := sample) closing_toast
      (initialWorld "workflow-1") = Returns (notification, config') w' /\
    option_map onClick (options_of notification (displayed w')) =
      Some (Some (Callback 7)) /\
    cfg_onClick config' =
      Some (CloseThenCall notification (Some (Callback 7))) /\
    click notification w' = Returns tt w'' /\
    closeCalls w'' = [] /\
    callbackRuns w'' = [7].
Proof. repeat eexists. Qed.

(** The wrapper itself closes the notification and then runs the handler. *)
Example wrapper_closes_then_calls :
  exists w',
    run_handler (CloseThenCall 0 (Some (Callback 7)))
      (initialWorld "workflow-1") = Returns tt w' /\
    closeCalls w' = [0] /\ callbackRuns w' = [7].
Proof. eexists. repeat split. Qed.

(** C1 (as stated) fails: a notification shown without a duration is not
    put in the queue. *)
Lemma showMessage_unset_duration_not_queued :
  ~ (forall (messageData : ElNotificationOptions) (track : option bool)
            (w : World),
        queue_ok w ->
        exists notification w',
          showMessage (collaborators := sample) messageData track w =
            Returns notification w' /\
          (In notification (stickyNotificationQueue w') <->
           duration messageData = Some 0%Z \/ duration messageData = None)).
Proof.
  intros H.
  destruct (H transient_info None (initialWorld "workflow-1"))
    as (n & w' & E & Hin).
  - split; [constructor | intros h []].
  - injection E as <- <-. apply (proj2 Hin). now right.
Qed.

(** ** The theorems at work *)

Lemma two_sticky_queue_ok : queue_ok two_sticky.
Proof.
  split.
  - vm_compute. constructor.
    + intros [E|[]]. discriminate E.
    + constructor; [intros [] | constructor].
  - vm_compute. intros h [<-|[<-|[]]]; repeat constructor.
Defined.

Lemma showMessage_queued_iff_zero_duration_witness :
  queue_ok two_sticky /\
  exists notification w',
    showMessage (collaborators := sample) sticky_error None two_sticky =
      Returns notification w' /\
    (In notification (stickyNotificationQueue w') <->
     duration sticky_error = Some 0%Z) /\
    (duration sticky_error = Some 0%Z ->
     stickyNotificationQueue w' =
       (stickyNotificationQueue two_sticky ++ [notification])%list) /\
    (duration sticky_error <> Some 0%Z ->
     stickyNotificationQueue w' = stickyNotificationQueue two_sticky).
Proof.
  split; [exact two_sticky_queue_ok|].
  apply (showMessage_queued_iff_zero_duration (collaborators := sample)
           sticky_error None two_sticky).
  exact two_sticky_queue_ok.
Defined.

Lemma clearAllStickyNotifications_closes_each_once_witness :
  queue_ok two_sticky /\
  exists w' calls,
    clearAllStickyNotifications two_sticky = Returns tt w' /\
    stickyNotificationQueue w' = [] /\
    closes_between two_sticky w' calls /\
    (forall h, In h (stickyNotificationQueue two_sticky) ->
               count_occ Nat.eq_dec calls h = 1) /\
    (forall h, ~ In h (stickyNotificationQueue two_sticky) ->
               count_occ Nat.eq_dec calls h = 0).
Proof.
  split; [exact two_sticky_queue_ok|].
  apply (clearAllStickyNotifications_closes_each_once two_sticky).
  exact two_sticky_queue_ok.
Defined.


Lemma confirmModal_confirmed_or_reason_witness :
  confirmDialog (collaborators := sample) (escape_markup "Save <b>now</b>?")
    "Save?"
    {| confirmButtonText := "Save";
       cancelButtonText := "Cancel";
       box_dangerouslyUseHTMLString := true;
       showClose := Some true;
       box_type := Some warning |} = Rejects (VString "cancel") /\
  fst (confirmModal (collaborators := sample) "Save <b>now</b>?" "Save?"
         TypeOmitted (Some "Save") None (Some true)
         (initialWorld "workflow-1")) = Fulfilled (VString "cancel").
Proof.
  split; [reflexivity|].
  apply (proj1 (proj2
           (confirmModal_confirmed_or_reason (collaborators := sample)
              "Save <b>now</b>?" "Save?" TypeOmitted (Some "Save") None
              (Some true) (initialWorld "workflow-1")))).
  reflexivity.
Defined.

(** C4 (as stated) fails: a dialog that rejects with the string
    ["confirmed"] makes [confirmModal] answer ["confirmed"] although the
    dialog did not resolve. *)
Lemma confirmModal_confirmed_without_resolving :
  ~ (forall (collaborators : Collaborators) (message headline : string)
            (type : TypeArg) (confirmText cancelText : option string)
            (closeButton : option bool) (w : World),
        fst (confirmModal message headline type confirmText cancelText
               closeButton w) = Fulfilled (VString "confirmed") <->
        confirmDialog (sanitizeHtml message) headline
          {| confirmButtonText := text_or confirmText "showMessage.ok";
             cancelButtonText := text_or cancelText "showMessage.cancel";
             box_dangerouslyUseHTMLString := true;
             showClose :=
               Some (match closeButton with Some b => b | None => false end);
             box_type := type_entry type |} = Resolves).
Proof.
  intros H.
  pose proof (proj1 (H contrary "Leave the page?" "Leave?" TypeOmitted None
                       None None (initialWorld "workflow-1")) eq_refl) as E.
  vm_compute in E. discriminate E.
Qed.

(** The same call on a dialog layer whose constructor throws: the dialog is
    not asked, [confirmMessage] answers [false] and [confirmModal] answers
    what the constructor threw. *)
Example confirmations_without_dialog :
  confirmMessage (collaborators := without_dialog) "Delete it?" "Delete?"
    TypeOmitted None None (initialWorld "workflow-1") =
    (Fulfilled false, initialWorld "workflow-1") /\
  confirmModal (collaborators := without_dialog) "Delete it?" "Delete?"
    TypeOmitted None None None (initialWorld "workflow-1") =
    (Fulfilled (VTypeError "Dialog is not a constructor"),
     initialWorld "workflow-1").
Proof. split; reflexivity. Qed.

Lemma confirmations_show_sanitized_html_witness :
  Dialog_throws (Collaborators := sample) = None /\
  exists call,
    dialogCalls
      (snd (confirmMessage (collaborators := sample) "Save <b>now</b>?"
              "Save?" TypeOmitted None None two_sticky)) =
      (dialogCalls two_sticky ++ [call])%list /\
    dialog_message call = "Save &lt;b&gt;now&lt;/b&gt;?" /\
    box_dangerouslyUseHTMLString (dialog_options call) = true.
Proof.
  split; [reflexivity|].
  destruct (proj1 (confirmations_show_sanitized_html (collaborators := sample)
                     "Save <b>now</b>?" "Save?" TypeOmitted None None None
                     two_sticky))
    as (calls & E & One & _ & Each).
  specialize (One eq_refl).
  destruct calls as [|call [|? ?]]; try discriminate One.
  exists call. split; [exact E|].
  destruct (Each call (or_introl eq_refl)) as (Hm & _ & Hh).
  split; [exact Hm | exact Hh].
Defined.

Lemma getExecutionError_sentences_witness :
  getExecutionError
    {| resultData :=
         {| error_of := Some node_error; lastNodeExecuted := None |} |} =
  Normal
    (Some ("There was a problem executing the workflow:<br /><strong>" ++
           String (ascii_of_nat 34) EmptyString ++
           ("HTTP Request" ++ ": " ++ "boom") ++
           String (ascii_of_nat 34) EmptyString ++ "</strong>")).
Proof.
  apply (proj1 (proj2 (proj2 (proj2 getExecutionError_sentences)))
           _ node_error "boom" "HTTP Request");
    try reflexivity; try discriminate.
  right. reflexivity.
Defined.

(** ** More about the queue *)

Lemma options_of_app_old (h : Handle) (o : ElNotificationOptions)
  (l l' : list (Handle * ElNotificationOptions)) :
  options_of h l = Some o -> options_of h (l ++ l')%list = Some o.
Proof.
  induction l as [|[h' o'] l IH]; cbn; [discriminate|].
  destruct (Nat.eqb h h'); [trivial | exact IH].
Qed.

Lemma options_of_app_new (h : Handle) (o : ElNotificationOptions)
  (l : list (Handle * ElNotificationOptions)) :
  (forall o', ~ In (h, o') l) ->
  options_of h (l ++ [(h, o)])%list = Some o.
Proof.
  induction l as [|[h' o'] l IH]; cbn; intros Hn.
  - now rewrite Nat.eqb_refl.
  - destruct (Nat.eqb_spec h h') as [->|_].
    + elim (Hn o'). now left.
    + apply IH. intros o'' Hin. apply (Hn o''). now right.
Qed.

Lemma displayed_ok_fresh (w : World) (o : ElNotificationOptions) :
  displayed_ok w ->
  options_of (nextHandle w) (displayed w ++ [(nextHandle w, o)])%list = Some o.
Proof.
  intros OK. apply options_of_app_new. intros o' Hin.
  apply OK in Hin. lia.
Qed.

(** The three invariants together. *)
Lemma invariants_show (w w' : World) (o : ElNotificationOptions) :
  queue_ok w -> displayed_ok w -> sticky_displayed w ->
  nextHandle w' = S (nextHandle w) ->
  displayed w' = (displayed w ++ [(nextHandle w, o)])%list ->
  stickyNotificationQueue w' =
    (if is_zero (duration o)
     then stickyNotificationQueue w ++ [nextHandle w]
     else stickyNotificationQueue w)%list ->
  queue_ok w' /\ displayed_ok w' /\ sticky_displayed w'.
Proof.
  intros Q D S Hn Hd Hq. split; [|split].
  - apply (queue_ok_push w _ (nextHandle w) Q w' Hn Hq).
    destruct (is_zero _); auto.
  - intros h o' Hin. rewrite Hd in Hin. rewrite Hn.
    apply in_app_or in Hin as [Hin|[[= <- <-]|[]]]; [|lia].
    apply D in Hin. lia.
  - intros h Hin. rewrite Hq in Hin. rewrite Hd.
    pose proof (is_zero_iff (duration o)) as Z.
    assert (Old : In h (stickyNotificationQueue w) ->
                  exists o0, options_of h (displayed w ++ [(nextHandle w, o)])
                             = Some o0 /\ duration o0 = Some 0%Z).
    { intros Hold. destruct (S h Hold) as (o0 & L & Z0).
      exists o0. split; [now apply options_of_app_old | exact Z0]. }
    destruct (is_zero (duration o)); [|now apply Old].
    apply in_app_or in Hin as [Hin|[<-|[]]]; [now apply Old|].
    exists o. split; [now apply displayed_ok_fresh | now apply Z].
Qed.

Lemma invariants_same (w w' : World) :
  stickyNotificationQueue w' = stickyNotificationQueue w ->
  nextHandle w' = nextHandle w ->
  displayed w' = displayed w ->
  queue_ok w /\ displayed_ok w /\ sticky_displayed w ->
  queue_ok w' /\ displayed_ok w' /\ sticky_displayed w'.
Proof.
  intros Hq Hn Hd (Q & D & S). split; [|split].
  - now apply (queue_ok_same w w').
  - intros h o. rewrite Hd, Hn. apply D.
  - intros h. rewrite Hq, Hd. apply S.
Qed.

Lemma perform_invariants {collaborators : Collaborators} (c : Call)
  (w : World) :
  queue_ok w /\ displayed_ok w /\ sticky_displayed w ->
  queue_ok (perform c w) /\ displayed_ok (perform c w) /\
  sticky_displayed (perform c w).
Proof.
  intros (Q & D & S).
  destruct c as [messageData track | config | [|e] ttl msg | | ? ? ? ? ? |
                 ? ? ? ? ? ? | notification | notification];
    cbn [perform].
  - destruct (showMessage_returns messageData track w)
      as (w' & -> & Hn & Hq & Hd & _).
    now apply (invariants_show w w' (prepared messageData)).
  - destruct (showToast_returns config w) as (w' & E & ->).
    destruct (showMessage_returns (toast_options config) None w)
      as (w1 & E1 & Hn & Hq & Hd & _).
    rewrite E in E1. injection E1 as <-.
    now apply (invariants_show w w' (prepared (toast_options config))).
  - exact (conj Q (conj D S)).
  - pose proof (showError_cases e ttl msg w) as H.
    destruct (collapsableDetails e).
    + cbv zeta in H. destruct H as (w' & -> & Hn & Hq & Hd & _).
      apply (invariants_show w w' _ Q D S Hn Hd). exact Hq.
    + rewrite H. exact (conj Q (conj D S)).
  - destruct (clearAllStickyNotifications_returns w)
      as (w' & -> & Hq & _ & Hn & Hd & _).
    cbn [state_after]. split; [|split].
    + split; rewrite Hq; [constructor | intros h []].
    + intros h o. rewrite Hd, Hn. apply D.
    + intros h. rewrite Hq. intros [].
  - rewrite confirmMessage_cases. cbn [snd].
    match goal with
    | |- queue_ok (dialog_asked ?c w) /\ _ =>
        destruct (dialog_asked_frame c w) as (Hq & Hn & Hd & _)
    end.
    now apply (invariants_same w _ Hq Hn Hd).
  - rewrite confirmModal_cases. cbn [snd].
    match goal with
    | |- queue_ok (dialog_asked ?c w) /\ _ =>
        destruct (dialog_asked_frame c w) as (Hq & Hn & Hd & _)
    end.
    now apply (invariants_same w _ Hq Hn Hd).
  - destruct (click_frame notification w) as (w' & -> & (Hq & Hn & Hd) & _).
    now apply (invariants_same w w').
  - exact (conj Q (conj D S)).
Qed.

Lemma reachable_invariants {collaborators : Collaborators} (w : World) :
  reachable w -> queue_ok w /\ displayed_ok w /\ sticky_displayed w.
Proof.
  intros (wid & cs & ->).
  assert (G : forall w0,
             queue_ok w0 /\ displayed_ok w0 /\ sticky_displayed w0 ->
             queue_ok (perform_all cs w0) /\ displayed_ok (perform_all cs w0) /\
             sticky_displayed (perform_all cs w0)).
  { induction cs as [|c cs IH]; intros w0 OK; [exact OK|].
    apply IH. now apply perform_invariants. }
  apply G. split; [|split].
  - split; [constructor | intros h []].
  - intros h o [].
  - intros h [].
Qed.

(** X1: in every state that a session can reach, the queue holds no
    notification twice, and every notification in it has been displayed,
    with the duration 0. *)
Theorem reachable_queue_holds_sticky {collaborators : Collaborators}
  (w : World) :
  reachable w ->
  NoDup (stickyNotificationQueue w) /\
  forall h, In h (stickyNotificationQueue w) ->
    exists o, options_of h (displayed w) = Some o /\ duration o = Some 0%Z.
Proof.
  intros R. destruct (reachable_invariants w R) as ((ND & _) & _ & S).
  split; [exact ND | exact S].
Qed.

(** X2: in a reachable state, [clearAllStickyNotifications] closes only
    notifications that were displayed with the duration 0; a notification
    that dismisses itself is never closed by it. *)
Theorem clearAllStickyNotifications_closes_only_sticky
  {collaborators : Collaborators} (w : World) :
  reachable w ->
  exists w' calls,
    clearAllStickyNotifications w = Returns tt w' /\
    closes_between w w' calls /\
    forall h, In h calls ->
      exists o, options_of h (displayed w) = Some o /\ duration o = Some 0%Z.
Proof.
  intros R. destruct (reachable_invariants w R) as (_ & _ & S).
  destruct (clearAllStickyNotifications_returns w) as (w' & E & _ & Hc & _).
  exists w', (stickyNotificationQueue w). repeat split; assumption.
Qed.

(** X3: clearing twice is clearing once: the second call closes nothing and
    leaves the state as the first call left it. *)
Theorem clearAllStickyNotifications_twice (w : World) :
  exists w',
    clearAllStickyNotifications w = Returns tt w' /\
    clearAllStickyNotifications w' = Returns tt w'.
Proof.
  unfold clearAllStickyNotifications, bind, get_queue, put_queue.
  destruct (for_each_close (stickyNotificationQueue w) w) as (w1 & E & _).
  rewrite E. eexists. split; reflexivity.
Qed.

(** X4: a notification that the user closes stays in the queue, so the next
    [clearAllStickyNotifications] closes it a second time. *)
Theorem closed_by_user_stays_queued (w : World) (h : Handle) :
  In h (stickyNotificationQueue w) ->
  exists w1 w2,
    close h w = Returns tt w1 /\
    In h (stickyNotificationQueue w1) /\
    clearAllStickyNotifications w1 = Returns tt w2 /\
    closes_between w w2 (h :: stickyNotificationQueue w) /\
    2 <= count_occ Nat.eq_dec (h :: stickyNotificationQueue w) h.
Proof.
  intros Hin. exists (add_close h w).
  destruct (clearAllStickyNotifications_returns (add_close h w))
    as (w2 & E & _ & Hc & _).
  exists w2. split; [reflexivity|]. split; [exact Hin|].
  split; [exact E|]. split.
  - unfold closes_between in *. cbn in Hc. now rewrite Hc, <- app_assoc.
  - rewrite count_occ_cons_eq by reflexivity.
    apply (count_occ_In Nat.eq_dec) in Hin. apply le_n_S. exact Hin.
Qed.

Lemma perform_sticky_batch {collaborators : Collaborators}
  (batch : list ElNotificationOptions) :
  Forall (fun messageData => duration messageData = Some 0%Z) batch ->
  forall w,
    let w' := perform_all
                (map (fun messageData => DoShowMessage messageData None) batch)
                w in
    stickyNotificationQueue w' =
      (stickyNotificationQueue w ++
       seq (nextHandle w) (List.length batch))%list /\
    closeCalls w' = closeCalls w.
Proof.
  induction 1 as [|messageData batch Hz _ IH]; intros w; cbn zeta.
  - cbn. now rewrite app_nil_r.
  - cbn [map perform_all fold_left perform].
    destruct (showMessage_returns messageData None w)
      as (w1 & E & Hn & Hq & _ & _ & Hc & _).
    rewrite E. cbn [state_after].
    destruct (IH w1) as (IHq & IHc). unfold perform_all in IHq, IHc.
    rewrite IHq, IHc, Hq, Hn, Hc.
    apply is_zero_iff in Hz. rewrite Hz.
    cbn [List.length seq]. now rewrite <- app_assoc.
Qed.

(** X5: sticky notifications shown one after the other are queued in the
    order of the calls, behind what the queue held, and one
    [clearAllStickyNotifications] closes all of them in that order. *)
Theorem sticky_batch_closed_in_order {collaborators : Collaborators}
  (batch : list ElNotificationOptions) (w : World) :
  Forall (fun messageData => duration messageData = Some 0%Z) batch ->
  exists w',
    clearAllStickyNotifications
      (perform_all
         (map (fun messageData => DoShowMessage messageData None) batch) w) =
      Returns tt w' /\
    stickyNotificationQueue w' = [] /\
    closeCalls w' =
      (closeCalls w ++ stickyNotificationQueue w ++
       seq (nextHandle w) (List.length batch))%list.
Proof.
  intros Hz. destruct (perform_sticky_batch batch Hz w) as (Hq & Hc).
  destruct (clearAllStickyNotifications_returns
              (perform_all
                 (map (fun messageData => DoShowMessage messageData None) batch)
                 w)) as (w' & E & He & Hcl & _).
  exists w'. split; [exact E|]. split; [exact He|].
  unfold closes_between in Hcl. now rewrite Hcl, Hc, Hq.
Qed.

(** ** More about notifications and toasts *)

(** X6: what [showMessage] displays: the text is read as HTML, the position
    is the one given or else the bottom right corner, a text that is not
    empty has gone through the sanitizer, an empty or missing text is left
    alone, and the other options are the caller's. *)
Theorem showMessage_displays_prepared {collaborators : Collaborators}
  (messageData : ElNotificationOptions) (track : option bool) (w : World) :
  exists notification w' shown,
    showMessage messageData track w = Returns notification w' /\
    displayed w' = (displayed w ++ [(notification, shown)])%list /\
    dangerouslyUseHTMLString shown = Some true /\
    position shown =
      Some (match position messageData with
            | Some p => p
            | None => bottom_right
            end) /\
    (forall body, message messageData = Some body -> body <> "" ->
                  message shown = Some (sanitizeHtml body)) /\
    (truthy (message messageData) = false ->
     message shown = message messageData) /\
    title shown = title messageData /\
    type shown = type messageData /\
    duration shown = duration messageData /\
    onClick shown = onClick messageData /\
    onClose shown = onClose messageData /\
    customClass shown = customClass messageData.
Proof.
  destruct (showMessage_returns messageData track w)
    as (w' & E & _ & _ & Hd & _).
  exists (nextHandle w), w', (prepared messageData).
  split; [exact E|]. split; [exact Hd|]. split; [reflexivity|].
  split; [cbn; now destruct (position messageData)|].
  split; [|split; [|repeat split]].
  - intros [|c body] Hm Hb; [now elim Hb|]. cbn. now rewrite Hm.
  - intros Hf. cbn. now rewrite Hf.
Qed.

Lemma showToast_then_click {collaborators : Collaborators}
  (config : ToastConfig) (w : World) :
  displayed_ok w ->
  exists w',
    showToast config w =
      Returns
        (nextHandle w,
         match cfg_closeOnClick config with
         | Some true =>
             set_cfg_onClick
               (CloseThenCall (nextHandle w) (cfg_onClick config)) config
         | _ => config
         end) w' /\
    nextHandle w' = S (nextHandle w) /\
    displayed_ok w' /\
    closeCalls w' = closeCalls w /\
    callbackRuns w' = callbackRuns w /\
    click (nextHandle w) w' =
      match cfg_onClick config with
      | Some f => run_handler f w'
      | None => Returns tt w'
      end.
Proof.
  intros D. destruct (showToast_returns config w) as (w' & E & ->).
  destruct (showMessage_returns (toast_options config) None w)
    as (w1 & E1 & Hn & _ & Hd & _ & Hc & _ & _ & Hr & _).
  rewrite E in E1. injection E1 as <-.
  exists w'. split; [reflexivity|]. split; [exact Hn|]. split; [|split; [exact Hc|]].
  - intros h o Hin. rewrite Hd in Hin. rewrite Hn.
    apply in_app_or in Hin as [Hin|[[= <- <-]|[]]]; [|lia].
    apply D in Hin. lia.
  - split; [exact Hr|]. unfold click.
    rewrite Hd, (displayed_ok_fresh w _ D). reflexivity.
Qed.

(** X7: after [showToast] with [closeOnClick] and a function of the caller
    as [onClick], a click on the notification runs that function and closes
    nothing, in every state in which the handle of the notification is
    new. *)
Theorem showToast_click_runs_handler_only {collaborators : Collaborators}
  (config : ToastConfig) (id : nat) (w : World) :
  displayed_ok w ->
  cfg_closeOnClick config = Some true ->
  cfg_onClick config = Some (Callback id) ->
  exists notification config' w' w'',
    showToast config w = Returns (notification, config') w' /\
    click notification w' = Returns tt w'' /\
    closeCalls w'' = closeCalls w /\
    callbackRuns w'' = (callbackRuns w ++ [id])%list.
Proof.
  intros D Hc Ho.
  destruct (showToast_then_click config w D)
    as (w' & E & _ & _ & Hcl & Hr & Ck).
  rewrite Ho in Ck. cbn in Ck.
  eexists; eexists; exists w'; eexists.
  split; [exact E|]. split; [exact Ck|].
  cbn. now rewrite Hcl, Hr.
Qed.


(** ** More about errors *)

Lemma string_app_length (a b : string) :
  String.length (a ++ b) = String.length a + String.length b.
Proof. induction a as [|c a IH]; cbn; [reflexivity | now rewrite IH]. Qed.

Lemma string_app_assoc (a b c : string) : (a ++ b) ++ c = a ++ b ++ c.
Proof. induction a as [|x a IH]; cbn; [reflexivity | now rewrite IH]. Qed.

Lemma slice0_app (a b : string) : slice0 (String.length a) (a ++ b) = a.
Proof. apply prefix_correct, prefix_app. Qed.

(** X9: the description that the details show is never longer than 503
    characters: a description of up to 500 characters is shown as it is, a
    longer one is cut after its first 500 characters and followed by three
    dots; shortening what was shortened changes nothing. *)
Theorem errorDescription_of_bounded (description : string) :
  String.length (errorDescription_of description) <= 503 /\
  (String.length description <= 500 ->
   errorDescription_of description = description) /\
  (500 < String.length description ->
   String.length (errorDescription_of description) = 503 /\
   exists first rest,
     description = first ++ rest /\
     String.length first = 500 /\
     errorDescription_of description = first ++ "...") /\
  errorDescription_of (errorDescription_of description) =
    errorDescription_of description.
Proof.
  destruct (errorDescription_of_truncates description) as (Short & Long).
  destruct (Nat.le_gt_cases (String.length description) 500) as [Hl|Hl].
  - rewrite (Short Hl). repeat split; try lia; auto.
  - destruct (Long Hl) as (first & rest & Hd & Hf & E).
    assert (L : String.length (errorDescription_of description) = 503).
    { rewrite E, string_app_length, Hf. reflexivity. }
    split; [lia|]. split; [lia|]. split.
    + intros _. split; [exact L|]. now exists first, rest.
    + unfold errorDescription_of at 1.
      destruct (Nat.ltb_spec 500 (String.length (errorDescription_of description)));
        [|lia].
      rewrite E at 1. rewrite <- Hf, slice0_app. now rewrite E.
Qed.

Section MoreErrors.

Context {collaborators : Collaborators}.

Lemma collapsableDetails_abrupt_iff (e : ErrorObject) :
  (exists t, collapsableDetails e = Abrupt t) <-> details_unreadable e.
Proof.
  unfold collapsableDetails, details_unreadable.
  destruct (truthy (err_description e)); cbn.
  - destruct (err_node e); cbn.
    + split; [intros _; auto | intros _; eexists; reflexivity].
    + split; [intros _; auto | intros _; eexists; reflexivity].
    + split; [intros (t & [=]) | intros (_ & [[=]|[=]])].
    + split; [intros (t & [=]) | intros (_ & [[=]|[=]])].
  - split; [intros (t & [=]) | intros ([=] & _)].
Qed.

(** X10: [showError] throws exactly when its first argument is [undefined]
    or [null], or is an error with a description whose [node] property is
    missing or holds no value; the state is then as it was.  In every other
    case it returns. *)
Theorem showError_throws_iff (e : ErrorArg) (title : string)
  (msg : option string) (w : World) :
  ((exists t w', showError e title msg w = Throws t w') <-> cannot_show e) /\
  (cannot_show e -> exists t, showError e title msg w = Throws t w) /\
  ((exists w', showError e title msg w = Returns tt w') <-> ~ cannot_show e).
Proof.
  destruct e as [|e]; cbn [cannot_show].
  - split; [|split].
    + split; [trivial | intros _; eexists; eexists; reflexivity].
    + intros _. eexists; reflexivity.
    + split; [intros (w' & [=]) | intros N; now elim N].
  - pose proof (showError_cases e title msg w) as H.
    pose proof (collapsableDetails_abrupt_iff e) as A.
    destruct (collapsableDetails e) as [details|t].
    + cbv zeta in H. destruct H as (w' & E & _).
      assert (N : ~ details_unreadable e).
      { intros U. apply A in U as (t & [=]). }
      rewrite E. split; [|split].
      * split; [intros (t & w1 & [=]) | intros U; now elim N].
      * intros U. now elim N.
      * split; [intros _; exact N | intros _; now exists w'].
    + assert (U : details_unreadable e) by (apply A; now exists t).
      rewrite H. split; [|split].
      * split; [intros _; exact U | intros _; now exists t, w].
      * intros _. now exists t.
      * split; [intros (w' & [=]) | intros N; now elim N].
Qed.

(** X11: on every other error, [showError] shows one sticky notification of
    type ['error'], puts it at the end of the queue, runs the hook once with
    the title, the caller's message and the message of the error, and sends
    one event, classified by the message of the error; the event that
    [showMessage] would send is switched off. *)
Theorem showError_effects (e : ErrorObject) (title : string)
  (msg : option string) (w : World) :
  ~ details_unreadable e ->
  exists w' shown,
    showError e title msg w = Returns tt w' /\
    displayed w' = (displayed w ++ [(nextHandle w, shown)])%list /\
    duration shown = Some 0%Z /\
    type shown = Some error /\
    stickyNotificationQueue w' =
      (stickyNotificationQueue w ++ [nextHandle w])%list /\
    tracked w' =
      (tracked w ++
       [{| event_name := "Instance FE emitted error";
           error_title := title;
           error_description := Some msg;
           error_message := err_message e;
           caused_by_credential := causedByCredential (err_message e);
           workflow_id := workflowId w |}])%list /\
    hookRuns w' =
      (hookRuns w ++
       [{| hook_name := "showMessage.showError";
           hook_title := title;
           hook_message := msg;
           hook_errorMessage := err_message e |}])%list /\
    closeCalls w' = closeCalls w.
Proof.
  intros N.
  pose proof (showError_cases e title msg w) as H.
  pose proof (collapsableDetails_abrupt_iff e) as A.
  destruct (collapsableDetails e) as [details|t].
  - cbv zeta in H.
    destruct H as (w' & E & _ & Hq & Hd & Ht & Hh & Hc & _).
    eexists; eexists. split; [exact E|]. split; [exact Hd|].
    repeat split; assumption.
  - elim N. apply A. now exists t.
Qed.

End MoreErrors.

(** X12: [getExecutionError] throws exactly when no last executed node is
    named and the error has a message and a [node] property that holds no
    value. *)
Theorem getExecutionError_throws_iff (data : IRunExecutionData) :
  (exists t, getExecutionError data = Abrupt t) <->
  exists e,
    error_of (resultData data) = Some e /\
    truthy (lastNodeExecuted (resultData data)) = false /\
    truthy (err_message e) = true /\
    err_node e = NodeNullish.
Proof.
  unfold getExecutionError.
  destruct (error_of (resultData data)) as [e|].
  - destruct (truthy (lastNodeExecuted (resultData data))).
    + split; [intros (t & [=]) | intros (e' & _ & [=] & _)].
    + destruct (truthy (err_message e)) eqn:Hm.
      * destruct (err_node e) eqn:Hn; cbn.
        -- split; [intros (t & [=])|].
           intros (e' & [= <-] & _ & _ & Hn'). congruence.
        -- split; [|intros _; eexists; reflexivity].
           intros _. exists e. now repeat split.
        -- split; [intros (t & [=])|].
           intros (e' & [= <-] & _ & _ & Hn'). congruence.
        -- split; [intros (t & [=])|].
           intros (e' & [= <-] & _ & _ & Hn'). congruence.
      * split; [intros (t & [=])|].
        intros (e' & [= <-] & _ & Hm' & _). congruence.
  - destruct (truthy _); split;
      try (intros (t & [=])); intros (e & [=] & _).
Qed.

(** X13: the result of [getExecutionError] is [undefined] exactly when a
    last executed node is named and the error has neither a message nor a
    description; in every other case that returns, the result is a string. *)
Theorem getExecutionError_undefined_iff (data : IRunExecutionData) :
  getExecutionError data = Normal None <->
  exists e,
    error_of (resultData data) = Some e /\
    truthy (lastNodeExecuted (resultData data)) = true /\
    truthy (err_message e) = false /\
    err_description e = None.
Proof.
  unfold getExecutionError.
  destruct (error_of (resultData data)) as [e|].
  - destruct (truthy (lastNodeExecuted (resultData data))).
    + unfold or_else. destruct (truthy (err_message e)) eqn:Hm.
      * split.
        -- intros [= E]. rewrite E in Hm. discriminate.
        -- intros (e' & [= <-] & _ & Hm' & _). congruence.
      * split.
        -- intros [= E]. exists e. now repeat split.
        -- intros (e' & [= <-] & _ & _ & ->). reflexivity.
    + split; [|intros (e' & _ & [=] & _)].
      destruct (truthy (err_message e)); [|discriminate].
      destruct (nodeName_of (err_node e)); discriminate.
  - destruct (truthy _); split;
      try discriminate; intros (e & [=] & _).
Qed.

(** X14: text around a message does not change its classification: a
    message classified as caused by a credential stays so inside any
    surrounding text, such as the markup that [showError] puts around the
    message of an error. *)
Theorem causedByCredential_wrapped (m before after : string) :
  causedByCredential (Some m) = true ->
  causedByCredential (Some (before ++ m ++ after)) = true.
Proof.
  assert (W : forall t, includes m t = true ->
                        includes (before ++ m ++ after) t = true).
  { intros t Ht. apply includes_contains in Ht as (a & b & ->).
    apply includes_contains. exists (before ++ a), (b ++ after).
    now rewrite !string_app_assoc. }
  destruct m as [|c m]; [discriminate|]. cbn [causedByCredential].
  intros H. apply andb_true_iff in H as [H1 H2].
  apply W in H1, H2.
  destruct (before ++ String c m ++ after) eqn:E.
  - destruct before; discriminate.
  - now rewrite H1, H2.
Qed.

(** ** More about toasts and dialogs *)

Section MoreDialogs.

Context {collaborators : Collaborators}.

(** X15: [showToast] cannot switch tracking off and queues like
    [showMessage]: a toast of type ['error'] always sends one event, with
    the title and the sanitized message of the toast, a toast of another
    type sends none, and the toast is put in the queue exactly when its
    duration is 0. *)
Theorem showToast_tracks_and_queues (config : ToastConfig) (w : World) :
  exists notification config' w',
    showToast config w = Returns (notification, config') w' /\
    (cfg_type config = Some error ->
     tracked w' =
       (tracked w ++
        [{| event_name := "Instance FE emitted error";
            error_title := cfg_title config;
            error_description := None;
            error_message :=
              if truthy (Some (cfg_message config))
              then Some (sanitizeHtml (cfg_message config))
              else Some (cfg_message config);
            caused_by_credential :=
              causedByCredential
                (if truthy (Some (cfg_message config))
                 then Some (sanitizeHtml (cfg_message config))
                 else Some (cfg_message config));
            workflow_id := workflowId w |}])%list) /\
    (cfg_type config <> Some error -> tracked w' = tracked w) /\
    (cfg_duration config = Some 0%Z ->
     stickyNotificationQueue w' =
       (stickyNotificationQueue w ++ [notification])%list) /\
    (cfg_duration config <> Some 0%Z ->
     stickyNotificationQueue w' = stickyNotificationQueue w).
Proof.
  destruct (showToast_returns config w) as (w' & E & ->).
  destruct (showMessage_returns (toast_options config) None w)
    as (w1 & E1 & _ & Hq & _ & Ht & _).
  rewrite E in E1. injection E1 as <-.
  eexists; eexists; exists w'. split; [reflexivity|].
  cbn [toast_options type duration] in Hq, Ht.
  pose proof (is_error_iff (cfg_type config)) as Ie.
  pose proof (is_zero_iff (cfg_duration config)) as Iz.
  rewrite Hq, Ht, andb_true_r.
  destruct (is_error (cfg_type config)), (is_zero (cfg_duration config)).
  all: repeat split; intros H; try reflexivity.
  all: try (exfalso; apply H; intuition congruence).
  all: try (exfalso; intuition congruence).
Qed.

(** X16: the confirmation functions only ask: whatever the user answers,
    they leave the queue, the notifications, the close calls, the events
    and the hook runs as they were, and the dialog is asked once when its
    constructor gives an instance and not at all when the constructor
    throws. *)
Theorem confirmations_only_ask (message headline : string) (type : TypeArg)
  (confirmText cancelText : option string) (showClose : option bool)
  (w : World) :
  let after w' :=
    stickyNotificationQueue w' = stickyNotificationQueue w /\
    displayed w' = displayed w /\
    closeCalls w' = closeCalls w /\
    tracked w' = tracked w /\
    hookRuns w' = hookRuns w /\
    List.length (dialogCalls w') =
      List.length (dialogCalls w) +
      match Dialog_throws with Some _ => 0 | None => 1 end in
  after (snd (confirmMessage message headline type confirmText cancelText w))
  /\
  after (snd (confirmModal message headline type confirmText cancelText
                showClose w)).
Proof.
  cbv zeta. rewrite confirmMessage_cases, confirmModal_cases. cbn [snd].
  split;
    match goal with
    | |- stickyNotificationQueue (dialog_asked ?c ?w0) = _ /\ _ =>
        destruct (dialog_asked_frame c w0)
          as (Hq & _ & Hd & Hc & Ht & Hh & _);
        pose proof (dialog_asked_calls c w0) as Hl
    end;
    rewrite Hl, length_app; repeat split; try assumption;
    now destruct Dialog_throws.
Qed.

(** X17: the labels and the type of the dialog, whenever it is asked.  A
    label of the caller that is not empty is used; a missing or empty label
    is replaced by the localized text for OK, or for Cancel.  Without a
    type argument the dialog is a warning, with [null] it has no type.
    [confirmMessage] does not set the close button; [confirmModal] always
    sets it, to [false] unless the caller says otherwise.  The dialog is
    asked once when its constructor gives an instance. *)
Theorem confirmation_labels_and_type (message headline : string)
  (type : TypeArg) (confirmText cancelText : option string)
  (closeButton : option bool) (w : World) :
  exists askedByMessage askedByModal,
    dialogCalls
      (snd (confirmMessage message headline type confirmText cancelText w)) =
      (dialogCalls w ++ askedByMessage)%list /\
    dialogCalls
      (snd (confirmModal message headline type confirmText cancelText
              closeButton w)) =
      (dialogCalls w ++ askedByModal)%list /\
    (Dialog_throws = None ->
     List.length askedByMessage = 1 /\ List.length askedByModal = 1) /\
    (forall call,
        In call askedByMessage \/ In call askedByModal ->
        (forall label, confirmText = Some label -> label <> "" ->
                       confirmButtonText (dialog_options call) = label) /\
        (truthy confirmText = false ->
         confirmButtonText (dialog_options call) =
           baseText "showMessage.ok") /\
        (forall label, cancelText = Some label -> label <> "" ->
                       cancelButtonText (dialog_options call) = label) /\
        (truthy cancelText = false ->
         cancelButtonText (dialog_options call) =
           baseText "showMessage.cancel") /\
        box_type (dialog_options call) =
          match type with
          | TypeOmitted => Some warning
          | TypeNull => None
          | TypeGiven t => Some t
          end) /\
    (forall call, In call askedByMessage ->
                  showClose (dialog_options call) = None) /\
    (forall call, In call askedByModal ->
                  showClose (dialog_options call) =
                    Some (match closeButton with
                          | Some b => b
                          | None => false
                          end)).
Proof.
  rewrite confirmMessage_cases, confirmModal_cases. cbn [snd].
  rewrite !dialog_asked_calls.
  eexists; eexists. split; [reflexivity|]. split; [reflexivity|].
  assert (L : forall text key,
             (forall label, text = Some label -> label <> "" ->
                            text_or text key = label) /\
             (truthy text = false -> text_or text key = baseText key)).
  { intros text key. unfold text_or. split.
    - intros [|c l] -> Hl; [now elim Hl | reflexivity].
    - now intros ->. }
  destruct Dialog_throws as [thrown|].
  - split; [discriminate|]. split; [intros call [[]|[]]|].
    split; intros call [].
  - split; [now split|]. split; [|split].
    + intros call [[<-|[]]|[<-|[]]]; cbn.
      all: split; [apply L|]; split; [apply L|]; split; [apply L|];
        split; [apply L|]; now destruct type.
    + intros call [<-|[]]. reflexivity.
    + intros call [<-|[]]. reflexivity.
Qed.

End MoreDialogs.

(** ** The further theorems at work *)

Lemma two_sticky_reachable : reachable (collaborators := sample) two_sticky.
Proof.
  exists "workflow-1",
    [DoShowMessage sticky_error None;
     DoShowMessage transient_info None;
     DoShowMessage sticky_error (Some false)].
  reflexivity.
Defined.

Lemma two_sticky_displayed_ok : displayed_ok two_sticky.
Proof.
  intros h o Hin. vm_compute in Hin.
  destruct Hin as [E|[E|[E|[]]]]; injection E as <- _; vm_compute;
    repeat constructor.
Defined.

Lemma reachable_queue_holds_sticky_witness :
  reachable (collaborators := sample) two_sticky /\
  NoDup (stickyNotificationQueue two_sticky) /\
  forall h, In h (stickyNotificationQueue two_sticky) ->
    exists o,
      options_of h (displayed two_sticky) = Some o /\ duration o = Some 0%Z.
Proof.
  split; [exact two_sticky_reachable|].
  apply (reachable_queue_holds_sticky (collaborators := sample) two_sticky).
  exact two_sticky_reachable.
Defined.

Lemma clearAllStickyNotifications_closes_only_sticky_witness :
  reachable (collaborators := sample) two_sticky /\
  exists w' calls,
    clearAllStickyNotifications two_sticky = Returns tt w' /\
    closes_between two_sticky w' calls /\
    forall h, In h calls ->
      exists o,
        options_of h (displayed two_sticky) = Some o /\ duration o = Some 0%Z.
Proof.
  split; [exact two_sticky_reachable|].
  apply (clearAllStickyNotifications_closes_only_sticky
           (collaborators := sample) two_sticky).
  exact two_sticky_reachable.
Defined.

Lemma closed_by_user_stays_queued_witness :
  In 0 (stickyNotificationQueue two_sticky) /\
  exists w1 w2,
    close 0 two_sticky = Returns tt w1 /\
    In 0 (stickyNotificationQueue w1) /\
    clearAllStickyNotifications w1 = Returns tt w2 /\
    closes_between two_sticky w2 (0 :: stickyNotificationQueue two_sticky) /\
    2 <= count_occ Nat.eq_dec (0 :: stickyNotificationQueue two_sticky) 0.
Proof.
  split; [vm_compute; left; reflexivity|].
  apply (closed_by_user_stays_queued two_sticky 0).
  vm_compute. left. reflexivity.
Defined.

Lemma sticky_batch_closed_in_order_witness :
  Forall (fun messageData => duration messageData = Some 0%Z)
    [sticky_error; sticky_error] /\
  exists w',
    clearAllStickyNotifications
      (perform_all (collaborators := sample)
         (map (fun messageData => DoShowMessage messageData None)
            [sticky_error; sticky_error]) two_sticky) = Returns tt w' /\
    stickyNotificationQueue w' = [] /\
    closeCalls w' =
      (closeCalls two_sticky ++ stickyNotificationQueue two_sticky ++
       seq (nextHandle two_sticky) 2)%list.
Proof.
  split; [repeat constructor|].
  apply (sticky_batch_closed_in_order (collaborators := sample)
           [sticky_error; sticky_error] two_sticky).
  repeat constructor.
Defined.

Lemma showMessage_displays_prepared_witness :
  message sticky_error = Some "Credentials for Slack are not set" /\
  exists notification w' shown,
    showMessage (collaborators := sample) sticky_error None two_sticky =
      Returns notification w' /\
    displayed w' = (displayed two_sticky ++ [(notification, shown)])%list /\
    message shown = Some (escape_markup "Credentials for Slack are not set") /\
    position shown = Some bottom_right.
Proof.
  split; [reflexivity|].
  destruct (showMessage_displays_prepared (collaborators := sample)
              sticky_error None two_sticky)
    as (n & w' & shown & E & Hd & _ & Hp & Hm & _).
  exists n, w', shown. split; [exact E|]. split; [exact Hd|]. split.
  - apply (Hm "Credentials for Slack are not set"); [reflexivity|discriminate].
  - exact Hp.
Defined.

Lemma showToast_click_runs_handler_only_witness :
  (displayed_ok two_sticky /\
   cfg_closeOnClick closing_toast = Some true /\
   cfg_onClick closing_toast = Some (Callback 7)) /\
  exists notification config' w' w'',
    showToast (collaborators := sample) closing_toast two_sticky =
      Returns (notification, config') w' /\
    click notification w' = Returns tt w'' /\
    closeCalls w'' = closeCalls two_sticky /\
    callbackRuns w'' = (callbackRuns two_sticky ++ [7])%list.
Proof.
  split; [split; [exact two_sticky_displayed_ok | split; reflexivity]|].
  apply (showToast_click_runs_handler_only (collaborators := sample)
           closing_toast 7 two_sticky);
    [exact two_sticky_displayed_ok | reflexivity | reflexivity].
Defined.


Lemma errorDescription_of_bounded_witness :
  500 < String.length long_description /\
  String.length (errorDescription_of long_description) = 503.
Proof.
  assert (L : 500 < String.length long_description).
  { apply Nat.ltb_lt. vm_compute. reflexivity. }
  split; [exact L|].
  apply (proj1 (proj1 (proj2 (proj2
           (errorDescription_of_bounded long_description))) L)).
Defined.

Lemma showError_throws_iff_witness :
  (cannot_show described_error /\
   exists t,
     showError (collaborators := sample) described_error "Problem"
       (Some "Could not save") two_sticky = Throws t two_sticky) /\
  (cannot_show ErrNullish /\
   exists t,
     showError (collaborators := sample) ErrNullish "Problem" None two_sticky =
       Throws t two_sticky).
Proof.
  assert (U : cannot_show described_error).
  { split; [reflexivity | left; reflexivity]. }
  split; (split; [first [exact U | exact I]|]).
  - apply (proj1 (proj2
             (showError_throws_iff (collaborators := sample) described_error
                "Problem" (Some "Could not save") two_sticky)) U).
  - apply (proj1 (proj2
             (showError_throws_iff (collaborators := sample) ErrNullish
                "Problem" None two_sticky)) I).
Defined.

Lemma showError_effects_witness :
  ~ details_unreadable node_error /\
  exists w' shown,
    showError (collaborators := sample) node_error "Problem" None two_sticky =
      Returns tt w' /\
    displayed w' =
      (displayed two_sticky ++ [(nextHandle two_sticky, shown)])%list /\
    duration shown = Some 0%Z /\
    type shown = Some error /\
    stickyNotificationQueue w' =
      (stickyNotificationQueue two_sticky ++ [nextHandle two_sticky])%list /\
    tracked w' =
      (tracked two_sticky ++
       [{| event_name := "Instance FE emitted error";
           error_title := "Problem";
           error_description := Some None;
           error_message := err_message node_error;
           caused_by_credential := causedByCredential (err_message node_error);
           workflow_id := workflowId two_sticky |}])%list /\
    hookRuns w' =
      (hookRuns two_sticky ++
       [{| hook_name := "showMessage.showError";
           hook_title := "Problem";
           hook_message := None;
           hook_errorMessage := err_message node_error |}])%list /\
    closeCalls w' = closeCalls two_sticky.
Proof.
  assert (N : ~ details_unreadable node_error).
  { intros [_ [H|H]]; discriminate H. }
  split; [exact N|].
  apply (showError_effects (collaborators := sample) node_error "Problem"
           None two_sticky N).
Defined.

Lemma causedByCredential_wrapped_witness :
  causedByCredential (Some "Credentials for X are not set") = true /\
  causedByCredential
    (Some ("<i>" ++ "Credentials for X are not set" ++ "</i>")) = true.
Proof.
  split; [reflexivity|].
  apply (causedByCredential_wrapped "Credentials for X are not set"
           "<i>" "</i>").
  reflexivity.
Defined.

Lemma showToast_tracks_and_queues_witness :
  cfg_type closing_toast <> Some error /\
  cfg_duration closing_toast <> Some 0%Z /\
  exists notification config' w',
    showToast (collaborators := sample) closing_toast two_sticky =
      Returns (notification, config') w' /\
    tracked w' = tracked two_sticky /\
    stickyNotificationQueue w' = stickyNotificationQueue two_sticky.
Proof.
  assert (T : cfg_type closing_toast <> Some error) by discriminate.
  assert (Z0 : cfg_duration closing_toast <> Some 0%Z) by discriminate.
  split; [exact T|]. split; [exact Z0|].
  destruct (showToast_tracks_and_queues (collaborators := sample)
              closing_toast two_sticky)
    as (n & c & w' & E & _ & Ht & _ & Hq).
  exists n, c, w'. split; [exact E|]. split; [exact (Ht T) | exact (Hq Z0)].
Defined.

Lemma confirmation_labels_and_type_witness :
  Dialog_throws (Collaborators := sample) = None /\
  exists asked,
    dialogCalls
      (snd (confirmMessage (collaborators := sample) "Delete it?" "Delete?"
              TypeNull (Some "Delete") (Some "") two_sticky)) =
      (dialogCalls two_sticky ++ [asked])%list /\
    confirmButtonText (dialog_options asked) = "Delete" /\
    cancelButtonText (dialog_options asked) = "Cancel" /\
    box_type (dialog_options asked) = None.
Proof.
  split; [reflexivity|].
  destruct (confirmation_labels_and_type (collaborators := sample)
              "Delete it?" "Delete?" TypeNull (Some "Delete") (Some "") None
              two_sticky)
    as (a & b & Ea & _ & One & L & _).
  destruct (One eq_refl) as (Ha & _).
  destruct a as [|asked [|? ?]]; try discriminate Ha.
  exists asked. split; [exact Ea|].
  destruct (L asked (or_introl (or_introl eq_refl)))
    as (Lc & _ & _ & Ld & Lt).
  split; [apply (Lc "Delete"); [reflexivity | discriminate]|].
  split; [apply Ld; reflexivity | exact Lt].
Defined.
